(** * tmux-sessionizer: a shallow embedding of [tmux-sessionizer.py]

    The script walks a directory tree to a bounded depth, offers the
    directories it found to [fzf], looks the chosen directory up among the
    running [tmux] sessions and attaches to the matching session, creating
    one with a fixed window layout first when there is none.

    Conventions of the embedding:
    - a Python [str] is a [string]; a character of it stands for a code
      point below 256;
    - a [pathlib.Path] (POSIX flavour) is a root marker and a list of parts;
    - the file system, the environment and the external processes are
      oracles, the fields of a [System]; the file system is assumed not to
      change during one run;
    - the module-global [CONFIG] is passed to every function as [cfg];
    - [print] and [subprocess.run] act on an explicit [World]: the lines
      printed so far and the external commands run so far;
    - exceptions are the [Raise] results of a small error-and-state monad:
      the [ValueError]s the script raises itself and the
      [CalledProcessError] of [check=True]. The file system queries always
      answer and every text encodes and decodes, so the errors the
      libraries raise on their own account (a [PermissionError] on an
      unreadable directory, a Unicode error on a name or an output that is
      not valid text) are outside the embedding. *)

From Stdlib Require Import List String Ascii ZArith Lia Bool Sorting.Sorted
  Permutation DecimalString.
Import ListNotations.
Open Scope string_scope.
Open Scope list_scope.
Open Scope Z_scope.

(** String concatenation, kept apart from the [++] of lists. *)
Infix "+++" := String.append (right associativity, at level 60).

(** ** Python string operations *)

Module Str.

Definition LF : ascii := "010"%char.
Definition CR : ascii := "013"%char.

(** [str.isspace] on one code point below 256. *)
Definition isspace (c : ascii) : bool :=
  let n := nat_of_ascii c in
  ((9 <=? n) && (n <=? 13) || (28 <=? n) && (n <=? 32)
   || (n =? 133) || (n =? 160))%nat.

(** The line boundaries of [str.splitlines] below 256. *)
Definition is_linebreak (c : ascii) : bool :=
  let n := nat_of_ascii c in
  ((10 <=? n) && (n <=? 13) || (28 <=? n) && (n <=? 30) || (n =? 133))%nat.

Fixpoint lstrip (s : string) : string :=
  match s with
  | EmptyString => EmptyString
  | String c rest => if isspace c then lstrip rest else s
  end.

Fixpoint rstrip (s : string) : string :=
  match s with
  | EmptyString => EmptyString
  | String c rest =>
      match rstrip rest with
      | EmptyString => if isspace c then EmptyString else String c EmptyString
      | r => String c r
      end
  end.

(** [s.strip()] *)
Definition strip (s : string) : string := rstrip (lstrip s).

Definition snoc (s : string) (c : ascii) : string := s +++ String c EmptyString.

Definition line_of (cur : option string) : string :=
  match cur with Some l => l | None => EmptyString end.

(** [cur] is the line being read ([None] right after a boundary);
    [after_cr] tells that the previous character was a carriage return,
    so that a line feed now belongs to the same boundary. *)
Fixpoint splitlines_from (s : string) (cur : option string) (after_cr : bool)
  : list string :=
  match s with
  | EmptyString => match cur with Some l => [l] | None => [] end
  | String c rest =>
      if after_cr && Ascii.eqb c LF then splitlines_from rest cur false
      else if is_linebreak c
           then line_of cur :: splitlines_from rest None (Ascii.eqb c CR)
           else splitlines_from rest (Some (snoc (line_of cur) c)) false
  end.

(** [s.splitlines()] *)
Definition splitlines (s : string) : list string := splitlines_from s None false.

(** [s.startswith(p)] *)
Definition startswith (s p : string) : bool := String.prefix p s.

(** [c in s] for a one-character string [c]. *)
Fixpoint contains (c : ascii) (s : string) : bool :=
  match s with
  | EmptyString => false
  | String a rest => Ascii.eqb a c || contains c rest
  end.

(** [s.split(c, 1)] for a one-character separator, [None] when [c] does
    not occur (Python then returns the one-element list [[s]]). *)
Fixpoint split_once (c : ascii) (s : string) : option (string * string) :=
  match s with
  | EmptyString => None
  | String a rest =>
      if Ascii.eqb a c then Some (EmptyString, rest)
      else match split_once c rest with
           | Some (l, r) => Some (String a l, r)
           | None => None
           end
  end.

(** [s.split(c)]: every maximal run between separators, empty ones too. *)
Fixpoint split (c : ascii) (s : string) : list string :=
  match s with
  | EmptyString => [EmptyString]
  | String a rest =>
      if Ascii.eqb a c then EmptyString :: split c rest
      else match split c rest with
           | l :: ls => String a l :: ls
           | [] => [String a EmptyString]
           end
  end.

(** [sep.join(l)] *)
Definition join (sep : string) (l : list string) : string := String.concat sep l.

(** [str(n)] for an integer. *)
Definition of_Z (n : Z) : string := NilZero.string_of_int (Z.to_int n).

(** Python's truth value of a string. *)
Definition truthy (s : string) : bool :=
  match s with EmptyString => false | _ => true end.

End Str.

(** ** [pathlib.Path], POSIX flavour *)

Module Pathlib.

(** The root of a path: none (a relative path), ["/"], or the ["//"] that
    POSIX lets an implementation treat specially. *)
Inductive Root := NoRoot | Slash | TwoSlashes.

Record Path := mkPath { root : Root; parts : list string }.

Definition Root_eq_dec (a b : Root) : {a = b} + {a <> b}.
Proof. decide equality. Defined.

Definition Path_eq_dec (p q : Path) : {p = q} + {p <> q}.
Proof.
  decide equality;
    [ apply (list_eq_dec string_dec) | apply Root_eq_dec ].
Defined.

Definition Root_eqb (a b : Root) : bool :=
  if Root_eq_dec a b then true else false.

Definition eqb (p q : Path) : bool := if Path_eq_dec p q then true else false.

Definition root_str (r : Root) : string :=
  match r with NoRoot => "" | Slash => "/" | TwoSlashes => "//" end.

Definition root_of (s : string) : Root :=
  match s with
  | String "/" (String "/" (String "/" _)) => Slash
  | String "/" (String "/" _) => TwoSlashes
  | String "/" _ => Slash
  | _ => NoRoot
  end.

Definition keep_part (s : string) : bool :=
  negb (String.eqb s "" || String.eqb s ".").

(** [Path(s)] *)
Definition of_string (s : string) : Path :=
  mkPath (root_of s) (filter keep_part (Str.split "/" s)).

(** [str(p)] *)
Definition str (p : Path) : string :=
  match root p, parts p with
  | NoRoot, [] => "."
  | r, ps => root_str r +++ Str.join "/" ps
  end.

(** [p.name] *)
Definition name (p : Path) : string := last (parts p) "".

(** [p / q] *)
Definition joinpath (p q : Path) : Path :=
  match root q with
  | NoRoot => mkPath (root p) (parts p ++ parts q)
  | _ => q
  end.

(** [p / s] for a string [s] *)
Definition child (p : Path) (s : string) : Path := joinpath p (of_string s).

Fixpoint strip_prefix (pre l : list string) : option (list string) :=
  match pre, l with
  | [], _ => Some l
  | a :: pre', b :: l' => if String.eqb a b then strip_prefix pre' l' else None
  | _ :: _, [] => None
  end.

(** [p.relative_to(other)]; [None] stands for the [ValueError] raised when
    [p] is not in the subpath of [other]. *)
Definition relative_to (p other : Path) : option Path :=
  if Root_eqb (root p) (root other) then
    match strip_prefix (parts other) (parts p) with
    | Some rest => Some (mkPath NoRoot rest)
    | None => None
    end
  else None.

End Pathlib.

Import Pathlib.

(** ** Configuration, processes, exceptions and the world *)

(** The [Config] typed dictionary. *)
Record Config := mkConfig {
  parent_dir : Path;
  depth : Z;
  fzf_options : list string;
  fzf_preview : string;
  tmux_session_factory : string -> Path -> list (list string);
  allowed_dotfiles : list string
}.

Definition with_allowed_dotfiles (cfg : Config) (l : list string) : Config :=
  mkConfig (parent_dir cfg) (depth cfg) (fzf_options cfg) (fzf_preview cfg)
           (tmux_session_factory cfg) l.

(** The namespace [argparse] returns. *)
Record Args := mkArgs {
  arg_parent_dir : Path;
  arg_depth : Z;
  arg_directory : option Path;
  arg_sessions : bool
}.

(** One external command: its argument vector and what it reads on its
    standard input, when the script supplies that. *)
Record Invocation := mkInvocation { argv : list string; input : option string }.

(** [subprocess.CompletedProcess] *)
Record CompletedProcess := mkCompleted {
  returncode : Z;
  stdout : string;
  stderr : string
}.

(** What the script asks of its surroundings: the file system
    ([Path.is_symlink], [Path.is_dir], [Path.is_file], [os.listdir],
    [Path.resolve]), the environment ([os.getenv]), and what an external
    command answers, given the commands run before it. *)
Record System := mkSystem {
  sys_is_symlink : Path -> bool;
  sys_is_dir : Path -> bool;
  sys_is_file : Path -> bool;
  sys_listdir : Path -> list string;
  sys_resolve : Path -> Path;
  sys_getenv : string -> option string;
  sys_process : list Invocation -> Invocation -> CompletedProcess
}.

(** The texts of the [ValueError]s the script can raise. *)
Inductive Message :=
| NotAValidDirectory (p : Path)
| NoSubdirectoriesFound (p : Path)
| NoValidDirectorySelected
| NotInSubpath (p other : Path).

Definition render (m : Message) : string :=
  match m with
  | NotAValidDirectory p => str p +++ " is not a valid directory."
  | NoSubdirectoriesFound p => "No subdirectories found in " +++ str p +++ "."
  | NoValidDirectorySelected =>
      "No valid directory selected. Do you have fzf installed and in your PATH?"
  | NotInSubpath p other =>
      "'" +++ str p +++ "' is not in the subpath of '" +++ str other +++ "'"
  end.

Inductive Exn :=
| ValueError (m : Message)
| CalledProcessError (code : Z) (cmd : list string).

(** What a run has done so far: the external commands it ran, oldest first,
    and the lines it printed. *)
Record World := mkWorld { ran : list Invocation; printed : list string }.

Definition initial : World := mkWorld [] [].

Inductive Result (A : Type) :=
| Ok (a : A)
| Raise (e : Exn).
Arguments Ok {A} a.
Arguments Raise {A} e.

Definition M (A : Type) : Type := World -> Result A * World.

Definition ret {A} (a : A) : M A := fun w => (Ok a, w).

Definition raise {A} (e : Exn) : M A := fun w => (Raise e, w).

Definition bind {A B} (m : M A) (k : A -> M B) : M B :=
  fun w => match m w with
           | (Ok a, w') => k a w'
           | (Raise e, w') => (Raise e, w')
           end.

Notation "x <- m ;; k" := (bind m (fun x => k))
  (at level 61, m at next level, right associativity).
Notation "m ;;; k" := (bind m (fun _ => k))
  (at level 61, right associativity).

(** [print(a, b, ...)]: the arguments separated by one space. *)
Definition print (args : list string) : M unit :=
  fun w => (Ok tt, mkWorld (ran w) (printed w ++ [Str.join " " args])).

(** A loop [for x in l: body(x)] whose body may raise. *)
Fixpoint for_each {A} (l : list A) (body : A -> M unit) : M unit :=
  match l with
  | [] => ret tt
  | x :: rest => body x ;;; for_each rest body
  end.

(** ** [sorted(..., key=...)]: a stable sort on the keys' string order *)

Section Sorted.
Context {A : Type} (key : A -> string).

Fixpoint insert_by (x : A) (l : list A) : list A :=
  match l with
  | [] => [x]
  | y :: rest =>
      if String.ltb (key y) (key x) then y :: insert_by x rest
      else x :: y :: rest
  end.

Definition sorted_by (l : list A) : list A := fold_right insert_by [] l.

(** The order of the keys. *)
Definition key_le (a b : A) : Prop := String.leb (key a) (key b) = true.
End Sorted.

(** [d[k].append(v)] on a [defaultdict(list)], which keeps its keys in the
    order of their first use. *)
Fixpoint dd_append (k v : string) (d : list (string * list string))
  : list (string * list string) :=
  match d with
  | [] => [(k, [v])]
  | (k', vs) :: rest =>
      if String.eqb k' k then (k', vs ++ [v]) :: rest
      else (k', vs) :: dd_append k v rest
  end.

(** ** [fill_down], from [preencher_coluna.py] *)

(** How the generator ends: exhausted, or with the [IndexError] of
    [rows[0]] on no rows or of an index past the end of [previous]. *)
Inductive Ended := Exhausted | IndexError.

(** Python's truth value of an entry of [previous]: [None] and the empty
    string are false. *)
Definition truthy_entry (prev : option string) : bool :=
  match prev with
  | Some (String _ _) => true
  | _ => false
  end.

(** The string an entry of [previous] holds, [None] holding none. *)
Definition entry_value (prev : option string) : string :=
  match prev with
  | Some v => v
  | None => ""
  end.

(** The inner loop over one row, cell by cell along [previous]; [None]
    when the row is longer than [previous]. *)
Fixpoint fill_row (row : list string) (previous : list (option string))
  : option (list string * list (option string)) :=
  match row with
  | [] => Some ([], previous)
  | value :: rest =>
      match previous with
      | [] => None
      | prev :: previous_rest =>
          let filled := String.eqb value "" && truthy_entry prev in
          let cell := if filled then entry_value prev else value in
          let prev' := if filled then prev else Some value in
          match fill_row rest previous_rest with
          | Some (row', previous') => Some (cell :: row', prev' :: previous')
          | None => None
          end
      end
  end.

(** The outer loop: the rows yielded, and how the generator ends. *)
Fixpoint fill_rows (rows : list (list string)) (previous : list (option string))
  : list (list string) * Ended :=
  match rows with
  | [] => ([], Exhausted)
  | row :: rest =>
      match fill_row row previous with
      | None => ([], IndexError)
      | Some (row', previous') =>
          let (yielded, ended) := fill_rows rest previous' in
          (row' :: yielded, ended)
      end
  end.

Definition fill_down (rows : list (list string)) : list (list string) * Ended :=
  match rows with
  | [] => ([], IndexError)
  | first :: _ => fill_rows rows (repeat None (List.length first))
  end.

(** The last non-empty string of a column read from the top, starting
    from [above]. *)
Definition keep_last (above value : string) : string :=
  if String.eqb value "" then above else value.

Definition last_filled (column : list string) : string :=
  fold_left keep_last column "".

(** The cells of column [i], the rows too short for it counting as
    empty. *)
Definition column (i : nat) (rows : list (list string)) : list string :=
  map (fun row => nth i row "") rows.

(** ** A small file system and some process behaviours, for examples *)

Module Fixture.

Definition P (l : list string) : Path := mkPath Slash l.

(** [/p] holds the directories [a] (with [a/x/y] below it), [b] (a git
    repository with a [src] directory), [.hidden] (with [in] below it),
    [py] (with a [pyproject.toml]) and [-x], the symbolic link [link]
    to [a] and the file [notes.txt]. *)
Definition dirs : list Path :=
  [ P ["p"]; P ["p"; "a"]; P ["p"; "a"; "x"]; P ["p"; "a"; "x"; "y"];
    P ["p"; "b"]; P ["p"; "b"; ".git"]; P ["p"; "b"; "src"];
    P ["p"; ".hidden"]; P ["p"; ".hidden"; "in"]; P ["p"; "py"]; P ["p"; "-x"];
    P ["home"]; P ["home"; "x"]; P ["home"; "y"] ].
Definition files : list Path :=
  [ P ["p"; "notes.txt"]; P ["p"; "py"; "pyproject.toml"] ].
Definition links : list Path := [ P ["p"; "link"] ].

Definition is_symlink (p : Path) : bool := existsb (eqb p) links.
Definition is_dir (p : Path) : bool := existsb (eqb p) (dirs ++ links).
Definition is_file (p : Path) : bool := existsb (eqb p) files.

Definition entry_in (p e : Path) : list string :=
  if Root_eqb (root p) (root e) then
    match strip_prefix (parts p) (parts e) with
    | Some [n] => [n]
    | _ => []
    end
  else [].

Definition listdir (p : Path) : list string :=
  if existsb (eqb p) dirs then flat_map (entry_in p) (dirs ++ files ++ links)
  else [].

(** Paths are taken as canonical already. *)
Definition resolve (p : Path) : Path := p.

(** What resolving does once the link is followed to [/p/a]. *)
Definition resolve_link (p : Path) : Path :=
  if eqb p (P ["p"; "link"]) then P ["p"; "a"] else p.

Definition getenv (v : string) : option string :=
  if String.eqb v "HOME" then Some "/p" else None.

Definition is_fzf (inv : Invocation) : bool :=
  match argv inv with
  | exe :: _ => String.eqb exe "fzf"
  | [] => false
  end.

(** [fzf] ends with [fzf_answer]; every [tmux] command succeeds, and the
    session listing prints [listing]. *)
Definition answers (fzf_answer : CompletedProcess) (listing : string)
    (hist : list Invocation) (inv : Invocation) : CompletedProcess :=
  if is_fzf inv then fzf_answer
  else match argv inv with
       | [_; "ls"; _; _] => mkCompleted 0 listing ""
       | _ => mkCompleted 0 "" ""
       end.

(** As [answers], but the command run as the [n]-th of the run (counted
    from 0) exits with status 1. *)
Definition failing_at (n : nat) (fzf_answer : CompletedProcess) (listing : string)
    (hist : list Invocation) (inv : Invocation) : CompletedProcess :=
  if Nat.eqb (List.length hist) n then mkCompleted 1 "" "boom"
  else answers fzf_answer listing hist inv.

Definition NL : string := String Str.LF "".

Definition system (proc : list Invocation -> Invocation -> CompletedProcess)
  : System :=
  mkSystem is_symlink is_dir is_file listdir resolve getenv proc.

(** The user leaves [fzf] without choosing. *)
Definition cancelling : System := system (answers (mkCompleted 130 "" "") "").

(** [fzf] breaks with status 2, having written [out] and [err]. *)
Definition breaking (out err : string) : System :=
  system (answers (mkCompleted 2 out err) "").

(** The user picks [choice]; the sessions [dev] at [/home/x] and [work] at
    [/home/y] are running. *)
Definition picking (choice : string) : System :=
  system (answers (mkCompleted 0 (choice +++ NL) "")
                  ("dev:/home/x" +++ NL +++ "work:/home/y" +++ NL)).

(** As [picking], but the fourth command of the run fails. *)
Definition failing_fourth (choice : string) : System :=
  system (failing_at 3 (mkCompleted 0 (choice +++ NL) "")
                     ("dev:/home/x" +++ NL +++ "work:/home/y" +++ NL)).

(** The one running session has an empty name and sits at [/p/a]. *)
Definition nameless : System :=
  system (answers (mkCompleted 0 ("a" +++ NL) "") (":/p/a" +++ NL)).

(** Resolving drops the [..] after the missing [nope], as
    [Path.resolve] does for what does not exist. *)
Definition resolve_dotdot (p : Path) : Path :=
  if eqb p (P ["p"; "nope"; ".."]) then P ["p"] else p.

(** [fzf] prints [nope/..], a way through a directory that does not
    exist. *)
Definition through_missing : System :=
  mkSystem is_symlink is_dir is_file listdir resolve_dotdot getenv
           (answers (mkCompleted 0 ("nope/.." +++ NL) "") "").

End Fixture.

(** ** The script *)

Section Sessionizer.

Variable sys : System.

Local Abbreviation is_symlink := (sys_is_symlink sys).
Local Abbreviation is_dir := (sys_is_dir sys).
Local Abbreviation is_file := (sys_is_file sys).
Local Abbreviation listdir := (sys_listdir sys).
Local Abbreviation resolve := (sys_resolve sys).
Local Abbreviation getenv := (sys_getenv sys).
Local Abbreviation process := (sys_process sys).

(** [path.iterdir()] *)
Definition iterdir (path : Path) : list Path :=
  map (fun n => mkPath (root path) (parts path ++ [n])) (listdir path).

(** [subprocess.run(cmd, input=..., check=...)]; the executables are
    assumed to be installed. *)
Definition subprocess_run (check : bool) (inv : Invocation) : M CompletedProcess :=
  fun w =>
    let r := process (ran w) inv in
    let w' := mkWorld (ran w ++ [inv]) (printed w) in
    if check && negb (returncode r =? 0)
    then (Raise (CalledProcessError (returncode r) (argv inv)), w')
    else (Ok r, w').

Definition detect_env_activation (path : Path) : option (list string) :=
  if negb (is_dir path) then None
  else if is_file (child path "shell.nix") then
    Some ["nix-shell"; "--run"; "$SHELL"]
  else if is_file (child path "pyproject.toml") then
    Some ["poetry"; "shell"]
  else if is_dir (child path ".venv") then
    let venv_path := child (child (child path ".venv") "bin") "activate" in
    Some ["/usr/bin/env"; "bash"; "-c"; "source " +++ str venv_path]
  else None.

Definition standard_tmux_session (session_name : string) (path : Path)
  : list (list string) :=
  let apath := str (resolve path) in
  let env_cmd := detect_env_activation path in
  let cmds :=
    [ ["tmux"; "rename-window"; "-t"; session_name +++ ":1"; "neovim"];
      ["tmux"; "new-window"; "-t"; session_name; "-n"; "dev"; "-c"; apath];
      ["tmux"; "split-window"; "-v"; "-t"; session_name +++ ":2"; "-c"; apath];
      ["tmux"; "select-window"; "-t"; session_name +++ ":2.1"];
      ["tmux"; "new-window"; "-t"; session_name; "-n"; "shell"; "-c"; apath] ] in
  let keys : list (string * list string) := [] in
  let keys :=
    match env_cmd with
    | Some (c :: cs) =>
        let env_cmd_str := Str.join " " (c :: cs) in
        dd_append "3.1" env_cmd_str
          (dd_append "2.2" env_cmd_str
             (dd_append "2.1" env_cmd_str
                (dd_append "1.1" env_cmd_str keys)))
    | _ => keys
    end in
  let keys := dd_append "1.1" "nvim ." keys in
  let cmds :=
    cmds ++ map (fun '(pane, pane_cmds) =>
                   ["tmux"; "send-keys"; "-t"; session_name +++ ":" +++ pane;
                    Str.join " && " pane_cmds; "C-m"]) keys in
  cmds ++ [ ["tmux"; "select-window"; "-t"; session_name +++ ":1"] ].

Definition CONFIG : Config :=
  mkConfig
    (resolve (of_string
       match getenv "TMUX_SESSIONIZER_PARENT_DIR" with
       | Some v => v
       | None => match getenv "HOME" with Some h => h | None => "." end
       end))
    2
    ["--cycle"]
    "eza --color=always --icons --group-directories-first --git-ignore -T -L 2"
    standard_tmux_session
    [".config"; ".dotfiles"].

Definition path_is_git_repo (path : Path) : bool :=
  is_dir path && is_dir (child path ".git").

(** The recursion of [find_project_dirs] follows [depth]: [fuel] is
    [depth + 1] at every call, and is exhausted exactly when the depth is
    negative.  The list [acc], which the Python code extends in place, is
    passed along and returned. *)
Fixpoint find_project_dirs_rec (fuel : nat) (cfg : Config) (path : Path) (depth : Z)
    (acc : list Path) : list Path :=
  match fuel with
  | O => acc
  | S fuel' =>
      if depth <? 0 then acc
      else if is_symlink path then acc ++ [path]
      else if is_dir path then
        if Str.startswith (name path) "." then acc ++ [path]
        else
          let acc := acc ++ [path] in
          if path_is_git_repo path then acc
          else fold_left
                 (fun acc child => find_project_dirs_rec fuel' cfg child (depth - 1) acc)
                 (iterdir path) acc
      else acc
  end.

Definition find_project_dirs (cfg : Config) (path : Path) (depth : Z)
    (acc : list Path) : list Path :=
  find_project_dirs_rec (Z.to_nat (depth + 1)) cfg path depth acc.

Definition tmux_ls : Invocation :=
  mkInvocation ["tmux"; "ls"; "-F"; "#{session_name}:#{session_path}"] None.

(** The loop over the lines of the listing. *)
Fixpoint first_session_at (lines : list string) (path : Path) : option string :=
  match lines with
  | [] => None
  | line :: rest =>
      if negb (Str.contains ":" line) then first_session_at rest path
      else match Str.split_once ":" line with
           | Some (name, session_path) =>
               if eqb (resolve (of_string session_path)) (resolve path)
               then Some name
               else first_session_at rest path
           | None => first_session_at rest path
           end
  end.

Definition find_tmux_session_by_path (cfg : Config) (path : Path) : M (option string) :=
  result <- subprocess_run false tmux_ls ;;
  if (returncode result =? 1) && Str.startswith (stderr result) "no server running"
  then ret None
  else if negb (returncode result =? 0) then
    print ["Some unknown error has occurred while looking for tmux sessions."] ;;;
    ret None
  else ret (first_session_at (Str.splitlines (Str.strip (stdout result))) path).

Definition new_session (session_name : string) (path : Path) : Invocation :=
  mkInvocation ["tmux"; "new-session"; "-d"; "-s"; session_name; "-c"; str path] None.

Definition start_standard_tmux_session (cfg : Config) (session_name : string)
    (path : Path) : M unit :=
  subprocess_run true (new_session session_name path) ;;;
  for_each (tmux_session_factory cfg session_name path)
           (fun cmd => subprocess_run true (mkInvocation cmd None) ;;; ret tt).

(** The paths made relative to [parent_dir], or the first one that is not
    below it. *)
Fixpoint relative_all (paths : list Path) (parent_dir : Path) : Path + list Path :=
  match paths with
  | [] => inr []
  | p :: rest =>
      match relative_to p parent_dir with
      | None => inl p
      | Some r =>
          match relative_all rest parent_dir with
          | inl q => inl q
          | inr rs => inr (r :: rs)
          end
      end
  end.

(** The candidate list as [fzf] receives it: [list(set(paths))] keeps one
    copy of each path, [sorted] orders them by [str]. A Python set lists
    its elements in no fixed order; equal paths are the ones with equal
    string forms, so the keys of the copies kept are all different and the
    sorted list does not depend on that order. *)
Definition candidate_list (paths : list Path) (parent_dir : Path) : Path + list Path :=
  let paths := sorted_by str (nodup Path_eq_dec paths) in
  relative_all paths parent_dir.

Definition fzf_cmd (cfg : Config) (parent_dir : Path) : list string :=
  let fzf_cmd := ["fzf"] in
  let fzf_cmd :=
    match fzf_options cfg with
    | [] => fzf_cmd
    | opts => fzf_cmd ++ opts
    end in
  if Str.truthy (fzf_preview cfg)
  then fzf_cmd ++ ["--preview"; fzf_preview cfg +++ " " +++ str parent_dir +++ "/{}"]
  else fzf_cmd.

Definition fzf_invocation (cfg : Config) (rels : list Path) (parent_dir : Path)
  : Invocation :=
  mkInvocation (fzf_cmd cfg parent_dir)
               (Some (Str.join (String Str.LF "") (map str rels))).

(** The standard output is taken as already decoded text. *)
Definition send_list_of_paths_to_fzf (cfg : Config) (paths : list Path)
    (parent_dir : Path) : M (option Path) :=
  match candidate_list paths parent_dir with
  | inl p => raise (ValueError (NotInSubpath p parent_dir))
  | inr paths =>
      result <- subprocess_run false (fzf_invocation cfg paths parent_dir) ;;
      if returncode result =? 0 then
        let selected_path :=
          joinpath parent_dir (of_string (Str.strip (stdout result))) in
        if is_dir selected_path then ret (Some (resolve selected_path))
        else raise (ValueError NoValidDirectorySelected)
      else if returncode result =? 130 then
        print ["fzf selection cancelled."] ;;;
        ret None
      else
        print ["Some unknown error occurrsed during the fzf selection. fzf exited with code: ";
               Str.of_Z (returncode result)] ;;;
        print [" === Output: ===" +++ String Str.LF ""; stdout result;
               String Str.LF "" +++ " === End of output ==="] ;;;
        print [" === Error: ===" +++ String Str.LF ""; stderr result;
               String Str.LF "" +++ " === End of error ==="] ;;;
        raise (ValueError NoValidDirectorySelected)
  end.

Definition attach_invocation (session_name : string) : Invocation :=
  match getenv "TMUX" with
  | Some (String _ _) => mkInvocation ["tmux"; "switch-client"; "-t"; session_name] None
  | _ => mkInvocation ["tmux"; "attach-session"; "-t"; session_name] None
  end.

Definition attach_to_tmux_session (session_name : string) : M unit :=
  subprocess_run false (attach_invocation session_name) ;;; ret tt.

Definition find_session_or_start_then_attach (cfg : Config) (selected_path : Path)
  : M Z :=
  if negb (is_dir selected_path)
  then raise (ValueError (NotAValidDirectory selected_path))
  else
    found <- find_tmux_session_by_path cfg selected_path ;;
    match found with
    | Some (String c s) =>
        attach_to_tmux_session (String c s) ;;; ret 0
    | _ =>
        let session_name := name selected_path in
        start_standard_tmux_session cfg session_name selected_path ;;;
        attach_to_tmux_session session_name ;;;
        ret 0
    end.

(** [Popen] starts the listing, whose output [fzf] reads. *)
Definition select_and_swap_to_active_session : M unit :=
  sessions <- subprocess_run false (mkInvocation ["tmux"; "ls"; "-F"; "#S"] None) ;;
  selected_session <-
    subprocess_run false
      (mkInvocation ["fzf"; "--cycle"; "--select-1"] (Some (stdout sessions))) ;;
  if negb (returncode selected_session =? 0) then
    print ["fzf selection cancelled."]
  else attach_to_tmux_session (Str.strip (stdout selected_session)).

Definition main (cfg : Config) (args : Args) : M Z :=
  if arg_sessions args then
    select_and_swap_to_active_session ;;; ret 0
  else
    match arg_directory args with
    | Some directory =>
        let path := resolve directory in
        if negb (is_dir path) then raise (ValueError (NotAValidDirectory path))
        else find_session_or_start_then_attach cfg path
    | None =>
        let parent_dir := resolve (arg_parent_dir args) in
        if negb (is_dir parent_dir)
        then raise (ValueError (NotAValidDirectory parent_dir))
        else
          let project_dirs := find_project_dirs cfg parent_dir (arg_depth args) [] in
          match project_dirs with
          | [] => raise (ValueError (NoSubdirectoriesFound parent_dir))
          | _ =>
              selected_path <- send_list_of_paths_to_fzf cfg project_dirs parent_dir ;;
              match selected_path with
              | None =>
                  print ["No directory selected. Exiting."] ;;; ret 1
              | Some selected_path =>
                  find_session_or_start_then_attach cfg selected_path
              end
          end
    end.

(** The arguments when the command line gives none. *)
Definition default_args (cfg : Config) : Args :=
  mkArgs (parent_dir cfg) (depth cfg) None false.

(** *** Notions used in the statements *)

(** The walker goes on below [q] only when [q] is a directory that is
    not a symbolic link, whose name does not start with a dot and which
    holds no [.git] directory. *)
Definition descended (q : Path) : Prop :=
  is_symlink q = false /\ is_dir q = true /\
  Str.startswith (name q) "." = false /\ is_dir (child q ".git") = false.

(** The path [k] levels below [top] on the way to [top / rel]. *)
Definition on_the_way (top : Path) (rel : list string) (k : nat) : Path :=
  mkPath (root top) (parts top ++ firstn k rel).

(** [m] raises nothing but exceptions in [P]. *)
Definition raises_only {A} (P : Exn -> Prop) (m : M A) : Prop :=
  forall w e, fst (m w) = Raise e -> P e.

(** The order [sorted] is asked to establish: by the string form, code
    point by code point. *)
Definition str_le (a b : Path) : Prop := String.leb (str a) (str b) = true.

(** The exceptions other than "no subdirectories found". *)
Definition not_no_subdirectories (e : Exn) : Prop :=
  forall p, e <> ValueError (NoSubdirectoriesFound p).

(** The line [line] of the session listing, split once at its first
    colon, names the session [name], and its path resolves to what
    [target] resolves to. *)
Definition names_session (line : string) (target : Path) (name : string) : Prop :=
  exists session_path,
    Str.split_once ":" line = Some (name, session_path) /\
    resolve (of_string session_path) = resolve target.

Definition matches (line : string) (target : Path) : Prop :=
  exists name, names_session line target name.

(** What one line of the listing contributes. *)
Definition session_of_line (line : string) (target : Path) : option string :=
  match Str.split_once ":" line with
  | Some (name, session_path) =>
      if eqb (resolve (of_string session_path)) (resolve target)
      then Some name else None
  | None => None
  end.

(** The plan's commands as the launcher runs them. *)
Definition step_invocations (plan : list (list string)) : list Invocation :=
  map (fun cmd => mkInvocation cmd None) plan.

(** The exit status of step [i] of [plan], run after the commands [hist]
    and the steps before it. *)
Definition exit_of_step (hist : list Invocation) (plan : list (list string))
    (i : nat) : Z :=
  returncode (process (hist ++ step_invocations (firstn i plan))
                      (mkInvocation (nth i plan []) None)).

(** The [send-keys] step for one pane. *)
Definition send_keys (session_name pane keys : string) : list string :=
  ["tmux"; "send-keys"; "-t"; session_name +++ ":" +++ pane; keys; "C-m"].

Definition is_send_keys (cmd : list string) : bool :=
  match cmd with
  | _ :: verb :: _ => String.eqb verb "send-keys"
  | _ => false
  end.

(** The walk from [top] with depth [d] reaches [p]: [p] lies [rel] below
    [top], no deeper than [d]; each directory on the way lists the next
    name and is one the walk goes below; and [p] itself is a symbolic link
    or a directory. *)
Definition walked (top : Path) (d : Z) (p : Path) : Prop :=
  exists rel,
    p = on_the_way top rel (List.length rel) /\
    Z.of_nat (List.length rel) <= d /\
    (forall k, (k < List.length rel)%nat ->
       descended (on_the_way top rel k) /\
       In (nth k rel "") (listdir (on_the_way top rel k))) /\
    is_symlink p || is_dir p = true.

(** The two commands of the [--sessions] mode: the listing of the session
    names, and [fzf] reading that listing. *)
Definition list_sessions : Invocation :=
  mkInvocation ["tmux"; "ls"; "-F"; "#S"] None.

Definition choose_session (listing : string) : Invocation :=
  mkInvocation ["fzf"; "--cycle"; "--select-1"] (Some listing).

(** [m] returns nothing but values in [Q]. *)
Definition returns_only {A} (Q : A -> Prop) (m : M A) : Prop :=
  forall w a, fst (m w) = Ok a -> Q a.

Definition tmux_command (inv : Invocation) : Prop := hd "" (argv inv) = "tmux".

Definition fzf_command (inv : Invocation) : Prop := hd "" (argv inv) = "fzf".

(** [m] adds to the commands run, and what it adds is in [Q]. *)
Definition runs {A} (Q : Invocation -> Prop) (m : M A) : Prop :=
  forall w, exists l, ran (snd (m w)) = ran w ++ l /\ Forall Q l.

(** A part of a path as a directory entry can be named: not empty, not
    [.], without a slash. *)
Definition plain_part (s : string) : Prop :=
  s <> "" /\ s <> "." /\ Str.contains "/" s = false.

(** ** Properties *)

(** *** The walker *)

Lemma fold_left_extends {A B} (f : list A -> B -> list A) (g : B -> list A) :
  (forall acc x, f acc x = acc ++ g x) ->
  forall l acc, fold_left f l acc = acc ++ flat_map g l.
Proof.
  intros Hf l; induction l as [|x l IH]; intros acc; simpl.
  - now rewrite app_nil_r.
  - now rewrite IH, Hf, app_assoc.
Qed.

(** The walker only appends to the list it is given. *)
Lemma find_project_dirs_rec_acc fuel cfg : forall path depth acc,
  find_project_dirs_rec fuel cfg path depth acc
  = acc ++ find_project_dirs_rec fuel cfg path depth [].
Proof.
  induction fuel as [|fuel IH]; intros path depth acc; simpl.
  - now rewrite app_nil_r.
  - destruct (depth <? 0); [now rewrite app_nil_r|].
    destruct (is_symlink path); [reflexivity|].
    destruct (is_dir path); [|now rewrite app_nil_r].
    destruct (Str.startswith (name path) "."); [reflexivity|].
    destruct (path_is_git_repo path); [reflexivity|].
    rewrite (fold_left_extends _ (fun c => find_project_dirs_rec fuel cfg c (depth - 1) []))
      by (intros; apply IH).
    rewrite (fold_left_extends _ (fun c => find_project_dirs_rec fuel cfg c (depth - 1) []))
      by (intros; apply IH).
    now rewrite app_assoc.
Qed.

(** One level of the walk, with the recursion as a [flat_map] over the
    children. *)
Lemma find_project_dirs_rec_step fuel cfg path depth :
  find_project_dirs_rec (S fuel) cfg path depth [] =
    if depth <? 0 then []
    else if is_symlink path then [path]
    else if is_dir path then
      if Str.startswith (name path) "." then [path]
      else if path_is_git_repo path then [path]
      else path :: flat_map (fun c => find_project_dirs_rec fuel cfg c (depth - 1) [])
                            (iterdir path)
    else [].
Proof.
  simpl.
  destruct (depth <? 0); [reflexivity|].
  destruct (is_symlink path); [reflexivity|].
  destruct (is_dir path); [|reflexivity].
  destruct (Str.startswith (name path) "."); [reflexivity|].
  destruct (path_is_git_repo path); [reflexivity|].
  now rewrite (fold_left_extends _
                 (fun c => find_project_dirs_rec fuel cfg c (depth - 1) []))
    by (intros; apply find_project_dirs_rec_acc).
Qed.

Lemma path_eta (p : Path) : mkPath (root p) (parts p) = p.
Proof. now destruct p. Qed.

Lemma on_the_way_0 top rel : on_the_way top rel 0 = top.
Proof. unfold on_the_way; simpl. rewrite app_nil_r. apply path_eta. Qed.

Lemma on_the_way_S top n rel k :
  on_the_way top (n :: rel) (S k)
  = on_the_way (mkPath (root top) (parts top ++ [n])) rel k.
Proof. unfold on_the_way; simpl. now rewrite <- app_assoc. Qed.

(** Every path the walk records is below its starting point, within the
    depth, and the walk went on below each directory on the way. *)
Lemma find_project_dirs_rec_sound fuel cfg : forall path depth p,
  In p (find_project_dirs_rec fuel cfg path depth []) ->
  root p = root path /\
  exists rel,
    parts p = parts path ++ rel /\
    Z.of_nat (List.length rel) <= depth /\
    forall k, (k < List.length rel)%nat -> descended (on_the_way path rel k).
Proof.
  induction fuel as [|fuel IH]; intros path depth p Hin; [destruct Hin|].
  rewrite find_project_dirs_rec_step in Hin.
  assert (Hhere : 0 <= depth -> p = path ->
            root p = root path /\
            exists rel, parts p = parts path ++ rel /\
              Z.of_nat (List.length rel) <= depth /\
              forall k, (k < List.length rel)%nat -> descended (on_the_way path rel k)).
  { intros Hd ->. split; [reflexivity|]. exists []. rewrite app_nil_r.
    split; [reflexivity|].
    split; [simpl; lia | intros k Hk; simpl in Hk; lia]. }
  destruct (depth <? 0) eqn:Hd; [destruct Hin|]. apply Z.ltb_ge in Hd.
  destruct (is_symlink path) eqn:Hl.
  { destruct Hin as [<-|[]]; now apply Hhere. }
  destruct (is_dir path) eqn:Hdir; [|destruct Hin].
  destruct (Str.startswith (name path) ".") eqn:Hdot.
  { destruct Hin as [<-|[]]; now apply Hhere. }
  destruct (path_is_git_repo path) eqn:Hgit.
  { destruct Hin as [<-|[]]; now apply Hhere. }
  destruct Hin as [<-|Hin]; [now apply Hhere|].
  apply in_flat_map in Hin. destruct Hin as [c [Hc Hin]].
  unfold iterdir in Hc. apply in_map_iff in Hc. destruct Hc as [n [<- _]].
  apply IH in Hin. destruct Hin as [Hroot [rel [Hparts [Hlen Hway]]]].
  simpl in Hroot, Hparts. split; [exact Hroot|].
  exists (n :: rel). rewrite Hparts, <- app_assoc. split; [reflexivity|].
  split; [simpl List.length; lia|].
  intros [|k] Hk.
  - rewrite on_the_way_0. unfold descended. repeat split; try assumption.
    unfold path_is_git_repo in Hgit. rewrite Hdir in Hgit. exact Hgit.
  - rewrite on_the_way_S. apply Hway. simpl in Hk. lia.
Qed.

(** The root of the walk is recorded whenever it is a symbolic link or a
    directory and the depth is not negative. *)
Lemma find_project_dirs_root cfg path depth :
  0 <= depth -> is_symlink path || is_dir path = true ->
  exists rest, find_project_dirs cfg path depth [] = path :: rest.
Proof.
  intros Hd H. unfold find_project_dirs.
  replace (Z.to_nat (depth + 1)) with (S (Z.to_nat depth)) by lia.
  rewrite find_project_dirs_rec_step.
  apply Z.ltb_ge in Hd. rewrite Hd.
  destruct (is_symlink path); [now eexists|]. simpl in H. rewrite H.
  destruct (Str.startswith (name path) "."); [now eexists|].
  destruct (path_is_git_repo path); now eexists.
Qed.

(** The fuel never cuts a walk short: any amount above the depth gives the
    result of [find_project_dirs]. *)
Lemma find_project_dirs_rec_fuel cfg : forall fuel path depth acc,
  (Z.to_nat (depth + 1) <= fuel)%nat ->
  find_project_dirs_rec fuel cfg path depth acc
  = find_project_dirs cfg path depth acc.
Proof.
  unfold find_project_dirs.
  induction fuel as [|fuel IH]; intros path depth acc Hf.
  - now replace (Z.to_nat (depth + 1)) with 0%nat by lia.
  - rewrite (find_project_dirs_rec_acc (S fuel)),
            (find_project_dirs_rec_acc (Z.to_nat (depth + 1))).
    f_equal. destruct (Z.lt_ge_cases depth 0) as [Hneg|Hd].
    + replace (Z.to_nat (depth + 1)) with 0%nat by lia.
      simpl. apply Z.ltb_lt in Hneg. now rewrite Hneg.
    + replace (Z.to_nat (depth + 1)) with (S (Z.to_nat depth)) by lia.
      rewrite !find_project_dirs_rec_step.
      repeat match goal with |- context [if ?b then _ else _] => destruct b end;
        try reflexivity.
      f_equal. apply flat_map_ext. intros c.
      rewrite IH by lia. f_equal. lia.
Qed.

(** C1. For every file system, root and depth [d], every path that
    [find_project_dirs] records has the root's parts as a prefix (it lies
    in the root's subtree), is at most [d] levels below the root (hence
    never more than [d + 1]), and each proper ancestor of it from the root
    on was a directory the walk could go below: not a symbolic link, not
    named with a leading dot, and without a [.git] directory. *)
Theorem C1_walker_bounded cfg (top : Path) (d : Z) (p : Path) :
  In p (find_project_dirs cfg top d []) ->
  root p = root top /\
  exists rel,
    parts p = parts top ++ rel /\
    Z.of_nat (List.length rel) <= d < d + 1 /\
    forall k, (k < List.length rel)%nat -> descended (on_the_way top rel k).
Proof.
  intros Hin. apply find_project_dirs_rec_sound in Hin.
  destruct Hin as [Hroot [rel [Hparts [Hlen Hway]]]].
  split; [exact Hroot|]. exists rel. repeat split; try assumption; try lia;
    now apply Hway.
Qed.

(** The walk reads nothing of the configuration. *)
Lemma find_project_dirs_rec_cfg fuel cfg cfg' : forall path depth acc,
  find_project_dirs_rec fuel cfg path depth acc
  = find_project_dirs_rec fuel cfg' path depth acc.
Proof.
  induction fuel as [|fuel IH]; intros path depth acc; [reflexivity|].
  rewrite (find_project_dirs_rec_acc (S fuel) cfg),
          (find_project_dirs_rec_acc (S fuel) cfg').
  f_equal. rewrite !find_project_dirs_rec_step.
  repeat match goal with |- context [if ?b then _ else _] => destruct b end;
    try reflexivity.
  f_equal. apply flat_map_ext. intros c. apply IH.
Qed.

(** C8. The [allowed_dotfiles] entry of the configuration is inert: the
    walk gives the same result whatever that list holds, and a directory
    named with a leading dot is recorded and never entered. *)
Theorem C8_allowed_dotfiles_inert cfg (l1 l2 : list string) path d acc :
  find_project_dirs (with_allowed_dotfiles cfg l1) path d acc
  = find_project_dirs (with_allowed_dotfiles cfg l2) path d acc
  /\ (0 <= d -> is_symlink path = false -> is_dir path = true ->
      Str.startswith (name path) "." = true ->
      find_project_dirs (with_allowed_dotfiles cfg l1) path d acc = acc ++ [path]).
Proof.
  split; [apply find_project_dirs_rec_cfg|].
  intros Hd Hl Hdir Hdot. unfold find_project_dirs.
  replace (Z.to_nat (d + 1)) with (S (Z.to_nat d)) by lia.
  simpl. apply Z.ltb_ge in Hd. now rewrite Hd, Hl, Hdir, Hdot.
Qed.

(** *** What can be raised *)

Lemma raises_only_ret {A} P (a : A) : raises_only P (ret a).
Proof. intros w e H; discriminate H. Qed.

Lemma raises_only_print P args : raises_only P (print args).
Proof. intros w e H; discriminate H. Qed.

Lemma raises_only_raise {A} (P : Exn -> Prop) e : P e -> raises_only P (@raise A e).
Proof. intros HP w e' H. simpl in H. now injection H as <-. Qed.

Lemma raises_only_bind {A B} P (m : M A) (k : A -> M B) :
  raises_only P m -> (forall a, raises_only P (k a)) -> raises_only P (bind m k).
Proof.
  intros Hm Hk w e H. unfold bind in H.
  destruct (m w) as [[a|e'] w'] eqn:E.
  - now apply (Hk a w').
  - apply (Hm w). rewrite E. simpl in *. now injection H as <-.
Qed.

Lemma raises_only_subprocess_run (P : Exn -> Prop) check inv :
  (forall c cmd, P (CalledProcessError c cmd)) ->
  raises_only P (subprocess_run check inv).
Proof.
  intros HP w e H. unfold subprocess_run in H.
  destruct (check && negb (returncode (process (ran w) inv) =? 0)); simpl in H;
    [injection H as <-; apply HP | discriminate H].
Qed.

Lemma raises_only_for_each {A} P (body : A -> M unit) l :
  (forall x, raises_only P (body x)) -> raises_only P (for_each l body).
Proof.
  intros Hb. induction l as [|x l IH]; simpl.
  - apply raises_only_ret.
  - apply raises_only_bind; [apply Hb | intros _; exact IH].
Qed.

Ltac raises_step :=
  match goal with
  | |- raises_only _ (bind _ _) => apply raises_only_bind; [|intros ?]
  | |- raises_only _ (ret _) => apply raises_only_ret
  | |- raises_only _ (print _) => apply raises_only_print
  | |- raises_only _ (raise _) => apply raises_only_raise
  | |- raises_only _ (subprocess_run _ _) => apply raises_only_subprocess_run
  | |- raises_only _ (for_each _ _) => apply raises_only_for_each; intros ?
  | |- raises_only _ (if ?b then _ else _) => destruct b
  | |- raises_only _ (match ?x with _ => _ end) => destruct x
  end.

Lemma attach_raises P name : raises_only P (attach_to_tmux_session name).
Proof.
  unfold attach_to_tmux_session. intros w e H. unfold bind, subprocess_run in H.
  simpl in H. discriminate H.
Qed.

Lemma find_tmux_session_by_path_raises P cfg path :
  raises_only P (find_tmux_session_by_path cfg path).
Proof.
  intros w e H. unfold find_tmux_session_by_path, bind, subprocess_run in H.
  simpl in H.
  repeat match type of H with
         | context [if ?b then _ else _] => destruct b; simpl in H
         end; discriminate H.
Qed.

Lemma find_session_or_start_then_attach_raises cfg path :
  raises_only not_no_subdirectories (find_session_or_start_then_attach cfg path).
Proof.
  unfold find_session_or_start_then_attach, start_standard_tmux_session.
  repeat first
    [ apply attach_raises
    | apply find_tmux_session_by_path_raises
    | raises_step ];
    intros; intros ?; discriminate.
Qed.

Lemma send_list_of_paths_to_fzf_raises cfg paths parent :
  raises_only not_no_subdirectories (send_list_of_paths_to_fzf cfg paths parent).
Proof.
  unfold send_list_of_paths_to_fzf.
  repeat raises_step; intros; intros ?; discriminate.
Qed.

Lemma select_and_swap_raises P : raises_only P select_and_swap_to_active_session.
Proof.
  intros w e H.
  unfold select_and_swap_to_active_session, attach_to_tmux_session, bind,
    subprocess_run, print in H.
  simpl in H.
  repeat match type of H with
         | context [if ?b then _ else _] => destruct b; simpl in H
         end; discriminate H.
Qed.

(** C9. A root that is an existing directory and not a symbolic link is
    itself among the walk's candidates whenever the depth is not negative;
    so the candidates of a run are not empty once the parent directory
    passed validation and the depth is not negative, and [main] can fail
    with "No subdirectories found" only under a negative depth. *)
Theorem C9_root_is_candidate cfg :
  (forall top d, 0 <= d -> is_symlink top = false -> is_dir top = true ->
     In top (find_project_dirs cfg top d [])) /\
  (forall args, is_dir (resolve (arg_parent_dir args)) = true ->
     0 <= arg_depth args ->
     find_project_dirs cfg (resolve (arg_parent_dir args)) (arg_depth args) [] <> []) /\
  (forall args w p,
     fst (main cfg args w) = Raise (ValueError (NoSubdirectoriesFound p)) ->
     arg_depth args < 0).
Proof.
  split; [|split].
  - intros top d Hd _ Hdir.
    destruct (find_project_dirs_root cfg top d Hd) as [rest ->];
      [rewrite Hdir; apply orb_true_r | now left].
  - intros args Hdir Hd.
    destruct (find_project_dirs_root cfg (resolve (arg_parent_dir args))
                (arg_depth args) Hd) as [rest ->];
      [rewrite Hdir; apply orb_true_r | discriminate].
  - intros args w p H. unfold main in H.
    destruct (arg_sessions args).
    { exfalso. revert H.
      assert (R : raises_only not_no_subdirectories
                    (select_and_swap_to_active_session ;;; ret 0)).
      { apply raises_only_bind; [apply select_and_swap_raises|].
        intros; apply raises_only_ret. }
      intros H. exact (R w _ H p eq_refl). }
    destruct (arg_directory args) as [directory|].
    { exfalso. destruct (is_dir (resolve directory)); simpl in H.
      - exact (find_session_or_start_then_attach_raises cfg _ w _ H p eq_refl).
      - discriminate H. }
    destruct (is_dir (resolve (arg_parent_dir args))) eqn:Hdir; simpl in H;
      [|discriminate H].
    destruct (Z.lt_ge_cases (arg_depth args) 0) as [Hneg|Hd]; [exact Hneg|].
    exfalso.
    destruct (find_project_dirs_root cfg (resolve (arg_parent_dir args))
                (arg_depth args) Hd) as [rest E];
      [rewrite Hdir; apply orb_true_r|].
    rewrite E in H.
    assert (R : raises_only not_no_subdirectories
                  (selected_path <-
                     send_list_of_paths_to_fzf cfg
                       (resolve (arg_parent_dir args) :: rest)
                       (resolve (arg_parent_dir args)) ;;
                   match selected_path with
                   | None => print ["No directory selected. Exiting."] ;;; ret 1
                   | Some selected_path =>
                       find_session_or_start_then_attach cfg selected_path
                   end)).
    { apply raises_only_bind; [apply send_list_of_paths_to_fzf_raises|].
      intros [sel|].
      - apply find_session_or_start_then_attach_raises.
      - apply raises_only_bind; [apply raises_only_print|].
        intros; apply raises_only_ret. }
    exact (R w _ H p eq_refl).
Qed.

(** *** The candidate list *)

Lemma ltb_false_leb a b : String.ltb a b = false -> String.leb b a = true.
Proof.
  unfold String.ltb, String.leb. rewrite (String.compare_antisym a b).
  destruct (String.compare b a); simpl; congruence.
Qed.

Lemma ltb_true_leb a b : String.ltb a b = true -> String.leb a b = true.
Proof.
  unfold String.ltb, String.leb. destruct (String.compare a b); congruence.
Qed.

Section InsertionSort.
Context {A : Type} (key : A -> string).

Local Abbreviation le := (key_le key).

Lemma insert_by_perm x l : Permutation (x :: l) (insert_by key x l).
Proof.
  induction l as [|y l IH]; simpl; [reflexivity|].
  destruct (String.ltb (key y) (key x)); [|reflexivity].
  rewrite perm_swap. now apply perm_skip.
Qed.

Lemma sorted_by_perm l : Permutation l (sorted_by key l).
Proof.
  induction l as [|x l IH]; simpl; [reflexivity|].
  rewrite <- insert_by_perm. now apply perm_skip.
Qed.

Lemma insert_by_hd y x l :
  HdRel le y l -> le y x -> HdRel le y (insert_by key x l).
Proof.
  intros Hy Hyx. destruct l as [|z l]; simpl; [now constructor|].
  destruct (String.ltb (key z) (key x)); constructor;
    [now inversion Hy | exact Hyx].
Qed.

Lemma insert_by_sorted x l : Sorted le l -> Sorted le (insert_by key x l).
Proof.
  induction 1 as [|y l Hs IH Hy]; simpl; [repeat constructor|].
  destruct (String.ltb (key y) (key x)) eqn:E.
  - constructor; [exact IH|]. apply insert_by_hd; [exact Hy|].
    now apply ltb_true_leb.
  - constructor; [now constructor|]. constructor. now apply ltb_false_leb.
Qed.

Lemma sorted_by_sorted l : Sorted le (sorted_by key l).
Proof.
  induction l as [|x l IH]; simpl; [constructor | now apply insert_by_sorted].
Qed.
End InsertionSort.

Lemma relative_all_inr paths parent rels :
  relative_all paths parent = inr rels ->
  map (fun p => relative_to p parent) paths = map Some rels.
Proof.
  revert rels. induction paths as [|p paths IH]; intros rels H; simpl in H.
  - now injection H as <-.
  - destruct (relative_to p parent) as [r|] eqn:E; [|discriminate H].
    destruct (relative_all paths parent) as [q|rs]; [discriminate H|].
    injection H as <-. simpl. now rewrite E, (IH rs).
Qed.

(** What [fzf] is given, whatever it answers. *)
Lemma send_list_of_paths_to_fzf_ran cfg paths parent rels w :
  candidate_list paths parent = inr rels ->
  ran (snd (send_list_of_paths_to_fzf cfg paths parent w))
  = ran w ++ [fzf_invocation cfg rels parent].
Proof.
  intros E. unfold send_list_of_paths_to_fzf. rewrite E.
  unfold bind, subprocess_run. simpl.
  repeat match goal with
         | |- context [if ?b then _ else _] => destruct b; simpl
         end; reflexivity.
Qed.

(** C2, as the code has it. The candidates are deduplicated as paths
    (nothing is resolved), sorted by the string form of the absolute
    path, and only then made relative to the parent; the lines [fzf]
    reads are their string forms in that order. For [/p/b], [/p/a],
    [/p/a] under [/p] the list is [a], [b]. *)
Theorem C2_candidate_list_sorted_absolute :
  (forall paths parent rels,
      candidate_list paths parent = inr rels ->
      exists absolute,
        NoDup absolute /\ (forall p, In p absolute <-> In p paths) /\
        Sorted str_le absolute /\
        map (fun p => relative_to p parent) absolute = map Some rels /\
        forall cfg w,
          ran (snd (send_list_of_paths_to_fzf cfg paths parent w))
          = ran w ++ [mkInvocation (fzf_cmd cfg parent)
                        (Some (Str.join (String Str.LF "") (map str rels)))]) /\
  candidate_list [of_string "/p/b"; of_string "/p/a"; of_string "/p/a"]
                 (of_string "/p")
  = inr [of_string "a"; of_string "b"] /\
  map str [of_string "a"; of_string "b"] = ["a"; "b"].
Proof.
  split; [|split; reflexivity].
  intros paths parent rels H.
  exists (sorted_by str (nodup Path_eq_dec paths)).
  assert (HP := sorted_by_perm str (nodup Path_eq_dec paths)).
  split; [|split; [|split; [|split]]].
  - eapply Permutation_NoDup; [exact HP | apply NoDup_nodup].
  - intros p. split; intros Hin.
    + apply (nodup_In Path_eq_dec).
      eapply Permutation_in; [symmetry; exact HP | exact Hin].
    + eapply Permutation_in; [exact HP | now apply nodup_In].
  - apply (sorted_by_sorted str).
  - now apply relative_all_inr.
  - intros cfg w. now apply send_list_of_paths_to_fzf_ran.
Qed.

(** *** The session registry *)

Lemma eqb_true_iff (p q : Path) : eqb p q = true <-> p = q.
Proof. unfold eqb. destruct (Path_eq_dec p q); split; congruence. Qed.

Lemma split_once_contains c s :
  Str.contains c s = false <-> Str.split_once c s = None.
Proof.
  induction s as [|a s IH]; simpl; [tauto|].
  destruct (Ascii.eqb a c); simpl; [split; discriminate|].
  rewrite IH. destruct (Str.split_once c s) as [[l r]|]; split; congruence.
Qed.

(** [split_once] cuts at the first separator, and only there. *)
Lemma split_once_spec c s l r :
  Str.split_once c s = Some (l, r) <->
  s = l +++ String c r /\ Str.contains c l = false.
Proof.
  revert l. induction s as [|a s IH]; intros l; simpl.
  - split; [discriminate|]. intros [H _]. destruct l; discriminate H.
  - destruct (Ascii.eqb a c) eqn:E.
    + apply Ascii.eqb_eq in E. subst a. split.
      * intros H. injection H as <- <-. now split.
      * intros [H Hl]. destruct l as [|b l]; simpl in *.
        -- now injection H as ->.
        -- injection H as <- _. rewrite Ascii.eqb_refl in Hl. discriminate Hl.
    + split.
      * destruct (Str.split_once c s) as [[l' r']|] eqn:Es; [|discriminate].
        intros H. injection H as <- <-.
        destruct (proj1 (IH l') eq_refl) as [-> Hl]. simpl. now rewrite E.
      * intros [H Hl]. destruct l as [|b l]; simpl in *.
        -- injection H as -> _. rewrite Ascii.eqb_refl in E. discriminate E.
        -- injection H as <- ->. rewrite E in Hl. simpl in Hl.
           now rewrite (proj2 (IH l) (conj eq_refl Hl)).
  Qed.

Lemma first_session_at_cons line rest target :
  first_session_at (line :: rest) target =
    match session_of_line line target with
    | Some name => Some name
    | None => first_session_at rest target
    end.
Proof.
  unfold session_of_line. simpl.
  destruct (Str.contains ":" line) eqn:E; simpl.
  - destruct (Str.split_once ":" line) as [[n sp]|]; [|reflexivity].
    now destruct (eqb _ _).
  - apply split_once_contains in E. now rewrite E.
Qed.

Lemma session_of_line_Some line target name :
  session_of_line line target = Some name <-> names_session line target name.
Proof.
  unfold session_of_line, names_session. split.
  - destruct (Str.split_once ":" line) as [[n sp]|]; [|discriminate].
    destruct (eqb _ _) eqn:E; [|discriminate].
    intros H. injection H as ->. apply eqb_true_iff in E. now exists sp.
  - intros [sp [-> E]]. apply eqb_true_iff in E. now rewrite E.
Qed.

Lemma session_of_line_None line target :
  session_of_line line target = None <-> ~ matches line target.
Proof.
  split.
  - intros H [name Hn]. apply session_of_line_Some in Hn. congruence.
  - intros H. destruct (session_of_line line target) as [name|] eqn:E;
      [|reflexivity].
    exfalso. apply H. exists name. now apply session_of_line_Some.
Qed.

Lemma first_session_at_None lines target :
  first_session_at lines target = None <->
  forall l, In l lines -> ~ matches l target.
Proof.
  induction lines as [|line rest IH]; [simpl; tauto|].
  rewrite first_session_at_cons.
  destruct (session_of_line line target) as [name|] eqn:E.
  - split; [discriminate|]. intros H. exfalso.
    apply (H line (or_introl eq_refl)). exists name.
    now apply session_of_line_Some.
  - rewrite IH. apply session_of_line_None in E. split.
    + intros H l [<-|Hl]; [exact E | now apply H].
    + intros H l Hl. apply H. now right.
Qed.

Lemma first_session_at_Some lines target name :
  first_session_at lines target = Some name <->
  exists before line after,
    lines = before ++ line :: after /\
    names_session line target name /\
    forall l, In l before -> ~ matches l target.
Proof.
  induction lines as [|line rest IH].
  - simpl. split; [discriminate|].
    intros [before [l [after [H _]]]]. destruct before; discriminate H.
  - rewrite first_session_at_cons.
    destruct (session_of_line line target) as [name'|] eqn:E.
    + split.
      * intros H. injection H as ->. exists [], line, rest.
        split; [reflexivity|]. split; [now apply session_of_line_Some|].
        intros l [].
      * intros [before [l [after [H [Hn Hb]]]]].
        destruct before as [|b before]; simpl in H; injection H as <- ->.
        -- apply session_of_line_Some in Hn. congruence.
        -- exfalso. apply (Hb line (or_introl eq_refl)). exists name'.
           now apply session_of_line_Some.
    + rewrite IH. apply session_of_line_None in E. split.
      * intros [before [l [after [-> [Hn Hb]]]]].
        exists (line :: before), l, after. split; [reflexivity|].
        split; [exact Hn|]. intros l' [<-|Hl']; [exact E | now apply Hb].
      * intros [before [l [after [H [Hn Hb]]]]].
        destruct before as [|b before]; simpl in H; injection H as <- ->.
        -- exfalso. apply E. now exists name.
        -- exists before, l, after. split; [reflexivity|].
           split; [exact Hn|]. intros l' Hl'. apply Hb. now right.
Qed.

Lemma find_tmux_session_by_path_listing cfg target w :
  returncode (process (ran w) tmux_ls) = 0 ->
  find_tmux_session_by_path cfg target w
  = (Ok (first_session_at
           (Str.splitlines (Str.strip (stdout (process (ran w) tmux_ls)))) target),
     mkWorld (ran w ++ [tmux_ls]) (printed w)).
Proof.
  intros H. unfold find_tmux_session_by_path, bind, subprocess_run. simpl.
  now rewrite H.
Qed.

(** C3. When the listing succeeds, [find_tmux_session_by_path] returns the
    name on the first line, in listing order, that splits at its first
    colon into a name and a path resolving to what the target resolves
    to; lines without a colon never match, and it returns [None] exactly
    when no line matches. For the lines [dev:/home/x] and [work:/home/y]
    and the target [/home/y/] it returns [work] (the two directories
    being distinct ones). *)
Theorem C3_first_match_in_listing_order cfg (target : Path) (w : World) :
  let lines := Str.splitlines (Str.strip (stdout (process (ran w) tmux_ls))) in
  returncode (process (ran w) tmux_ls) = 0 ->
  (forall name,
      fst (find_tmux_session_by_path cfg target w) = Ok (Some name) <->
      exists before line after,
        lines = before ++ line :: after /\
        names_session line target name /\
        forall l, In l before -> ~ matches l target) /\
  (fst (find_tmux_session_by_path cfg target w) = Ok None <->
   forall l, In l lines -> ~ matches l target) /\
  (forall line, Str.contains ":" line = false -> ~ matches line target) /\
  (forall line name session_path,
      Str.split_once ":" line = Some (name, session_path) <->
      line = name +++ String ":" session_path /\ Str.contains ":" name = false) /\
  (lines = ["dev:/home/x"; "work:/home/y"] ->
   target = of_string "/home/y/" ->
   resolve (of_string "/home/x") <> resolve (of_string "/home/y") ->
   fst (find_tmux_session_by_path cfg target w) = Ok (Some "work")).
Proof.
  intros lines Hrc.
  rewrite (find_tmux_session_by_path_listing cfg target w Hrc). simpl fst.
  fold lines.
  split; [|split; [|split; [|split]]].
  - intros name. rewrite <- first_session_at_Some. split; congruence.
  - rewrite <- first_session_at_None. split; congruence.
  - intros line Hc [name [sp [Hs _]]].
    apply split_once_contains in Hc. congruence.
  - intros line name sp. apply split_once_spec.
  - intros -> -> Hne. f_equal. simpl.
    change (of_string "/home/y/") with (of_string "/home/y").
    destruct (eqb (resolve (of_string "/home/x")) (resolve (of_string "/home/y")))
      eqn:E; [apply eqb_true_iff in E; contradiction|].
    now rewrite (proj2 (eqb_true_iff _ _) eq_refl).
Qed.

(** *** The selection *)

(** C4, as the code has it. Once [fzf] has run (its output taken as
    decoded text), the selection fails with its [ValueError] exactly when
    [fzf] exits 0 and [parent / output], as it stands before anything is
    resolved, is not an existing directory, or [fzf] exits with a status
    other than 0 and 130. The exception has the same fixed text in both
    cases; in the second the exit status and the captured standard output
    and standard error are printed before it is raised. When [fzf] exits 0
    and [parent / output] is an existing directory, that path is returned,
    resolved. *)
Theorem C4_selection_outcome cfg paths parent rels (w : World) :
  let result := process (ran w) (fzf_invocation cfg rels parent) in
  let selected := joinpath parent (of_string (Str.strip (stdout result))) in
  let outcome := send_list_of_paths_to_fzf cfg paths parent w in
  candidate_list paths parent = inr rels ->
  (fst outcome = Raise (ValueError NoValidDirectorySelected) <->
   (returncode result = 0 /\ is_dir selected = false) \/
   (returncode result <> 0 /\ returncode result <> 130)) /\
  (returncode result <> 0 -> returncode result <> 130 ->
   printed (snd outcome) =
     printed w ++
     [ Str.join " "
         ["Some unknown error occurrsed during the fzf selection. fzf exited with code: ";
          Str.of_Z (returncode result)];
       Str.join " " [" === Output: ===" +++ String Str.LF ""; stdout result;
                     String Str.LF "" +++ " === End of output ==="];
       Str.join " " [" === Error: ===" +++ String Str.LF ""; stderr result;
                     String Str.LF "" +++ " === End of error ==="] ]) /\
  (returncode result = 0 -> is_dir selected = true ->
   fst outcome = Ok (Some (resolve selected))).
Proof.
  intros result selected outcome Hc.
  unfold outcome, send_list_of_paths_to_fzf. rewrite Hc.
  unfold bind, subprocess_run, print, raise, ret. simpl.
  fold result. fold selected.
  destruct (returncode result =? 0) eqn:E0;
    [apply Z.eqb_eq in E0; destruct (is_dir selected) eqn:Ed
    |apply Z.eqb_neq in E0; destruct (returncode result =? 130) eqn:E130;
     [apply Z.eqb_eq in E130 | apply Z.eqb_neq in E130]];
    simpl; (split; [split|split]).
  all: try (intros H; discriminate H).
  all: try (intros; congruence).
  all: try (intros; lia).
  all: try (intros [[H1 H2]|[H1 H2]]; congruence || lia).
  all: try (intros _; first [left; split; congruence | right; split; congruence]).
  all: try (intros _; reflexivity).
  - intros _ _. now rewrite <- !app_assoc.
Qed.

(** *** The launch *)

Lemma exit_of_step_0 hist cmd plan :
  exit_of_step hist (cmd :: plan) 0
  = returncode (process hist (mkInvocation cmd None)).
Proof. unfold exit_of_step. simpl. now rewrite app_nil_r. Qed.

Lemma exit_of_step_S hist cmd plan i :
  exit_of_step hist (cmd :: plan) (S i)
  = exit_of_step (hist ++ [mkInvocation cmd None]) plan i.
Proof. unfold exit_of_step. simpl. now rewrite <- app_assoc. Qed.

Lemma for_each_step cmd plan hist out :
  for_each (cmd :: plan)
    (fun cmd => subprocess_run true (mkInvocation cmd None) ;;; ret tt)
    (mkWorld hist out)
  = if returncode (process hist (mkInvocation cmd None)) =? 0
    then for_each plan
           (fun cmd => subprocess_run true (mkInvocation cmd None) ;;; ret tt)
           (mkWorld (hist ++ [mkInvocation cmd None]) out)
    else (Raise (CalledProcessError
                   (returncode (process hist (mkInvocation cmd None))) cmd),
          mkWorld (hist ++ [mkInvocation cmd None]) out).
Proof.
  simpl. unfold bind, subprocess_run. simpl.
  now destruct (returncode (process hist (mkInvocation cmd None)) =? 0).
Qed.

(** The plan runs in order up to its first failing step, and stops there. *)
Lemma for_each_fails plan : forall hist out i cmd,
  nth_error plan i = Some cmd ->
  (forall j, (j < i)%nat -> exit_of_step hist plan j = 0) ->
  exit_of_step hist plan i <> 0 ->
  for_each plan (fun cmd => subprocess_run true (mkInvocation cmd None) ;;; ret tt)
    (mkWorld hist out)
  = (Raise (CalledProcessError (exit_of_step hist plan i) cmd),
     mkWorld (hist ++ step_invocations (firstn (S i) plan)) out).
Proof.
  induction plan as [|c plan IH]; intros hist out i cmd Hn Hok Hbad.
  - destruct i; discriminate Hn.
  - rewrite for_each_step. destruct i as [|i].
    + simpl in Hn. injection Hn as ->. rewrite exit_of_step_0 in *.
      apply Z.eqb_neq in Hbad. rewrite Hbad. reflexivity.
    + assert (H0 := Hok 0%nat (Nat.lt_0_succ i)). rewrite exit_of_step_0 in H0.
      rewrite H0. simpl "=?".  cbv iota.
      rewrite exit_of_step_S in *. simpl in Hn.
      rewrite (IH (hist ++ [mkInvocation c None]) out i cmd Hn).
      * simpl. now rewrite <- app_assoc.
      * intros j Hj. rewrite <- exit_of_step_S. apply Hok. lia.
      * exact Hbad.
Qed.

Lemma for_each_succeeds plan : forall hist out,
  (forall j, (j < List.length plan)%nat -> exit_of_step hist plan j = 0) ->
  for_each plan (fun cmd => subprocess_run true (mkInvocation cmd None) ;;; ret tt)
    (mkWorld hist out)
  = (Ok tt, mkWorld (hist ++ step_invocations plan) out).
Proof.
  induction plan as [|c plan IH]; intros hist out Hok.
  - simpl. now rewrite app_nil_r.
  - rewrite for_each_step.
    assert (H0 := Hok 0%nat (Nat.lt_0_succ _)). rewrite exit_of_step_0 in H0.
    rewrite H0. simpl "=?". cbv iota.
    rewrite IH.
    + simpl. now rewrite <- app_assoc.
    + intros j Hj. rewrite <- exit_of_step_S. apply Hok. simpl. lia.
Qed.

Lemma start_standard_tmux_session_plan cfg session_name path w :
  returncode (process (ran w) (new_session session_name path)) = 0 ->
  start_standard_tmux_session cfg session_name path w
  = for_each (tmux_session_factory cfg session_name path)
      (fun cmd => subprocess_run true (mkInvocation cmd None) ;;; ret tt)
      (mkWorld (ran w ++ [new_session session_name path]) (printed w)).
Proof.
  intros H. unfold start_standard_tmux_session, bind at 1, subprocess_run at 1.
  now rewrite H.
Qed.

(** C5. Once the detached session is created, the steps of the layout
    plan run one after the other in the plan's order. The first step that
    exits with a non-zero status ends the launch with the error of that
    step: the commands run are the session's creation and the steps up to
    the failing one, nothing after it and nothing that undoes them. When
    no step fails, all of them have run, in order. *)
Theorem C5_launch_stops_at_first_failure cfg session_name path (w : World) :
  let plan := tmux_session_factory cfg session_name path in
  let hist := ran w ++ [new_session session_name path] in
  returncode (process (ran w) (new_session session_name path)) = 0 ->
  (forall i cmd,
      nth_error plan i = Some cmd ->
      (forall j, (j < i)%nat -> exit_of_step hist plan j = 0) ->
      exit_of_step hist plan i <> 0 ->
      start_standard_tmux_session cfg session_name path w
      = (Raise (CalledProcessError (exit_of_step hist plan i) cmd),
         mkWorld (ran w ++ new_session session_name path
                    :: step_invocations (firstn (S i) plan))
                 (printed w))) /\
  ((forall j, (j < List.length plan)%nat -> exit_of_step hist plan j = 0) ->
   start_standard_tmux_session cfg session_name path w
   = (Ok tt,
      mkWorld (ran w ++ new_session session_name path :: step_invocations plan)
              (printed w))).
Proof.
  intros plan hist Hnew. split.
  - intros i cmd Hn Hok Hbad.
    rewrite (start_standard_tmux_session_plan _ _ _ _ Hnew). fold plan.
    rewrite (for_each_fails plan _ _ i cmd Hn Hok Hbad).
    unfold hist. now rewrite <- app_assoc.
  - intros Hok.
    rewrite (start_standard_tmux_session_plan _ _ _ _ Hnew). fold plan.
    rewrite (for_each_succeeds plan _ _ Hok).
    unfold hist. now rewrite <- app_assoc.
Qed.

(** *** The layout *)

Lemma detect_env_activation_cases path env_cmd :
  detect_env_activation path = Some env_cmd ->
  env_cmd = ["nix-shell"; "--run"; "$SHELL"] \/
  env_cmd = ["poetry"; "shell"] \/
  env_cmd = ["/usr/bin/env"; "bash"; "-c";
             "source " +++ str (child (child (child path ".venv") "bin") "activate")].
Proof.
  unfold detect_env_activation.
  repeat match goal with
         | |- context [if ?b then _ else _] => destruct b; simpl
         end; intros H; try discriminate H; injection H as <-; tauto.
Qed.

(** C6. When the probe gives an activation command for the directory, the
    keys sent to each of the panes 1.1, 2.1, 2.2 and 3.1 start with that
    command, joined by [" && "] to the pane's own command where it has
    one (the editor in pane 1.1). A directory holding only a
    [pyproject.toml] gets [poetry shell]. With none of [shell.nix],
    [pyproject.toml] and [.venv], the only keys sent are the editor's, to
    pane 1.1, without any prefix. *)
Theorem C6_activation_prefix (session_name : string) (path : Path) :
  (forall env_cmd,
      detect_env_activation path = Some env_cmd ->
      let activate := Str.join " " env_cmd in
      filter is_send_keys (standard_tmux_session session_name path) =
        [ send_keys session_name "1.1" (activate +++ " && " +++ "nvim .");
          send_keys session_name "2.1" activate;
          send_keys session_name "2.2" activate;
          send_keys session_name "3.1" activate ]) /\
  (is_dir path = true ->
   is_file (child path "shell.nix") = false ->
   is_file (child path "pyproject.toml") = true ->
   detect_env_activation path = Some ["poetry"; "shell"] /\
   Str.join " " ["poetry"; "shell"] = "poetry shell") /\
  (is_file (child path "shell.nix") = false ->
   is_file (child path "pyproject.toml") = false ->
   is_dir (child path ".venv") = false ->
   detect_env_activation path = None /\
   filter is_send_keys (standard_tmux_session session_name path) =
     [ send_keys session_name "1.1" "nvim ." ]).
Proof.
  split; [|split].
  - intros env_cmd H activate. unfold activate, standard_tmux_session.
    rewrite H.
    destruct (detect_env_activation_cases path env_cmd H) as [ -> | [ -> | -> ] ];
      reflexivity.
  - intros Hd Hn Hp. unfold detect_env_activation.
    now rewrite Hd, Hn, Hp.
  - intros Hn Hp Hv.
    assert (E : detect_env_activation path = None).
    { unfold detect_env_activation. rewrite Hn, Hp, Hv.
      now destruct (is_dir path). }
    split; [exact E|]. unfold standard_tmux_session. now rewrite E.
Qed.

(** *** Cancelling, and the name of a new session *)

Lemma strip_prefix_app pre rel : strip_prefix pre (pre ++ rel) = Some rel.
Proof.
  induction pre as [|a pre IH]; simpl; [reflexivity|].
  now rewrite String.eqb_refl.
Qed.

Lemma relative_to_below p top rel :
  root p = root top -> parts p = parts top ++ rel ->
  relative_to p top = Some (mkPath NoRoot rel).
Proof.
  intros Hr Hp. unfold relative_to, Root_eqb. rewrite Hr, Hp, strip_prefix_app.
  now destruct (Root_eq_dec (root top) (root top)).
Qed.

Lemma relative_all_total paths parent :
  (forall p, In p paths -> exists r, relative_to p parent = Some r) ->
  exists rels, relative_all paths parent = inr rels.
Proof.
  induction paths as [|p paths IH]; intros H; simpl; [now eexists|].
  destruct (H p (or_introl eq_refl)) as [r ->].
  destruct IH as [rels ->]; [intros q Hq; apply H; now right|].
  now eexists.
Qed.

(** Every candidate of a walk can be written relative to its root. *)
Lemma candidate_list_of_walk cfg top d :
  exists rels, candidate_list (find_project_dirs cfg top d []) top = inr rels.
Proof.
  unfold candidate_list. apply relative_all_total. intros p Hp.
  eapply Permutation_in in Hp; [|symmetry; apply sorted_by_perm].
  apply nodup_In in Hp.
  apply find_project_dirs_rec_sound in Hp.
  destruct Hp as [Hr [rel [Hparts _]]].
  exists (mkPath NoRoot rel). now apply relative_to_below.
Qed.

Lemma fzf_cmd_head cfg parent : hd "" (fzf_cmd cfg parent) = "fzf".
Proof.
  unfold fzf_cmd. destruct (fzf_options cfg); destruct (Str.truthy _); reflexivity.
Qed.

(** C7. When [fzf] exits with status 130 the selection returns [None];
    the run then ends with status 1, and [fzf] is the only external
    command it has run: no session listing, no launch, no attach. *)
Theorem C7_cancelled_selection cfg (args : Args) (w : World) :
  arg_sessions args = false ->
  arg_directory args = None ->
  is_dir (resolve (arg_parent_dir args)) = true ->
  0 <= arg_depth args ->
  (forall inv, hd "" (argv inv) = "fzf" -> returncode (process (ran w) inv) = 130) ->
  (forall paths parent rels,
      candidate_list paths parent = inr rels ->
      fst (send_list_of_paths_to_fzf cfg paths parent w) = Ok None) /\
  fst (main cfg args w) = Ok 1 /\
  exists fzf,
    hd "" (argv fzf) = "fzf" /\ ran (snd (main cfg args w)) = ran w ++ [fzf].
Proof.
  intros Hs Hdir Hp Hd Hfzf.
  assert (Hsel : forall paths parent rels,
             candidate_list paths parent = inr rels ->
             send_list_of_paths_to_fzf cfg paths parent w
             = (Ok None,
                mkWorld (ran w ++ [fzf_invocation cfg rels parent])
                        (printed w ++ ["fzf selection cancelled."]))).
  { intros paths parent rels Hc. unfold send_list_of_paths_to_fzf.
    rewrite Hc. unfold bind, subprocess_run. simpl.
    now rewrite (Hfzf (fzf_invocation cfg rels parent) (fzf_cmd_head cfg parent)). }
  split; [|split].
  - intros paths parent rels Hc. now rewrite (Hsel _ _ _ Hc).
  - unfold main. rewrite Hs, Hdir, Hp. simpl.
    destruct (find_project_dirs_root cfg (resolve (arg_parent_dir args))
                (arg_depth args) Hd) as [rest E];
      [rewrite Hp; apply orb_true_r|].
    destruct (candidate_list_of_walk cfg (resolve (arg_parent_dir args))
                (arg_depth args)) as [rels Hc].
    rewrite E in *. unfold bind at 1. now rewrite (Hsel _ _ _ Hc).
  - unfold main. rewrite Hs, Hdir, Hp. simpl.
    destruct (find_project_dirs_root cfg (resolve (arg_parent_dir args))
                (arg_depth args) Hd) as [rest E];
      [rewrite Hp; apply orb_true_r|].
    destruct (candidate_list_of_walk cfg (resolve (arg_parent_dir args))
                (arg_depth args)) as [rels Hc].
    rewrite E in *. unfold bind at 1. rewrite (Hsel _ _ _ Hc).
    exists (fzf_invocation cfg rels (resolve (arg_parent_dir args))).
    split; [apply fzf_cmd_head | reflexivity].
Qed.

Lemma for_each_ran plan : forall w,
  exists steps,
    ran (snd (for_each plan
                (fun cmd => subprocess_run true (mkInvocation cmd None) ;;; ret tt) w))
    = ran w ++ steps.
Proof.
  induction plan as [|c plan IH]; intros [hist out].
  - exists []. simpl. now rewrite app_nil_r.
  - rewrite for_each_step.
    destruct (returncode (process hist (mkInvocation c None)) =? 0).
    + destruct (IH (mkWorld (hist ++ [mkInvocation c None]) out)) as [steps ->].
      exists (mkInvocation c None :: steps). simpl. now rewrite <- app_assoc.
    + now exists [mkInvocation c None].
Qed.

Lemma bind_Ok {A B} (m : M A) (k : A -> M B) w a w' :
  m w = (Ok a, w') -> bind m k w = k a w'.
Proof. intros H. unfold bind. now rewrite H. Qed.

Lemma bind_Raise {A B} (m : M A) (k : A -> M B) w e w' :
  m w = (Raise e, w') -> bind m k w = (Raise e, w').
Proof. intros H. unfold bind. now rewrite H. Qed.

Lemma attach_to_tmux_session_runs session_name w :
  attach_to_tmux_session session_name w
  = (Ok tt, mkWorld (ran w ++ [attach_invocation session_name]) (printed w)).
Proof. reflexivity. Qed.

(** A launch begins with the creation of the session. *)
Lemma start_standard_tmux_session_ran cfg session_name path w :
  exists steps,
    ran (snd (start_standard_tmux_session cfg session_name path w))
    = ran w ++ new_session session_name path :: steps.
Proof.
  unfold start_standard_tmux_session, bind at 1, subprocess_run at 1.
  destruct (true && negb (returncode (process (ran w)
                                        (new_session session_name path)) =? 0)).
  - now exists [].
  - destruct (for_each_ran (tmux_session_factory cfg session_name path)
                (mkWorld (ran w ++ [new_session session_name path]) (printed w)))
      as [steps Hsteps].
    exists steps. rewrite Hsteps. simpl. now rewrite <- app_assoc.
Qed.

(** C10. When the chosen directory has no session in the registry, the
    command run right after the listing creates a session whose name is
    the last part of the directory's path, and a run that ends well has
    attached to that same name as its last command. *)
Theorem C10_new_session_named_after_directory cfg (path : Path) (w : World) :
  let outcome := find_session_or_start_then_attach cfg path w in
  is_dir path = true ->
  fst (find_tmux_session_by_path cfg path w) = Ok None ->
  (exists rest,
      ran (snd outcome) = ran w ++ tmux_ls :: new_session (name path) path :: rest /\
      (fst outcome = Ok 0 ->
       exists steps, rest = steps ++ [attach_invocation (name path)])) /\
  argv (new_session (name path) path)
  = ["tmux"; "new-session"; "-d"; "-s"; name path; "-c"; str path] /\
  (exists verb, argv (attach_invocation (name path)) = ["tmux"; verb; "-t"; name path]) /\
  name path = last (parts path) "".
Proof.
  intros outcome Hdir Hnone.
  split; [|split; [reflexivity|split; [|reflexivity]]].
  2:{ unfold attach_invocation. destruct (getenv "TMUX") as [[|c s]|]; now eexists. }
  assert (Hls : exists out,
             find_tmux_session_by_path cfg path w
             = (Ok None, mkWorld (ran w ++ [tmux_ls]) out)).
  { revert Hnone. unfold find_tmux_session_by_path, bind, subprocess_run, print, ret.
    simpl.
    repeat match goal with
           | |- context [if ?b then _ else _] => destruct b; simpl
           end; intros H; try discriminate H; try (now eexists).
    injection H as ->. now eexists. }
  destruct Hls as [out Hls].
  assert (Hout : outcome
                 = (start_standard_tmux_session cfg (name path) path ;;;
                    attach_to_tmux_session (name path) ;;; ret 0)
                     (mkWorld (ran w ++ [tmux_ls]) out)).
  { unfold outcome, find_session_or_start_then_attach. rewrite Hdir. simpl.
    now rewrite (bind_Ok _ _ _ _ _ Hls). }
  rewrite Hout. clear Hout outcome.
  destruct (start_standard_tmux_session_ran cfg (name path) path
              (mkWorld (ran w ++ [tmux_ls]) out)) as [steps Hsteps].
  destruct (start_standard_tmux_session cfg (name path) path
              (mkWorld (ran w ++ [tmux_ls]) out)) as [[[]|e] w'] eqn:Es;
    simpl in Hsteps.
  - rewrite (bind_Ok _ _ _ _ _ Es).
    rewrite (bind_Ok _ _ _ _ _ (attach_to_tmux_session_runs (name path) w')).
    exists (steps ++ [attach_invocation (name path)]). simpl. rewrite Hsteps.
    split; [now rewrite <- !app_assoc | now exists steps].
  - rewrite (bind_Raise _ _ _ _ _ Es).
    exists steps. simpl. rewrite Hsteps.
    split; [now rewrite <- !app_assoc | discriminate].
Qed.

(** *** More on the walker *)

Lemma find_project_dirs_unfold cfg path depth :
  find_project_dirs cfg path depth [] =
    if depth <? 0 then []
    else if is_symlink path then [path]
    else if is_dir path then
      if Str.startswith (name path) "." then [path]
      else if path_is_git_repo path then [path]
      else path :: flat_map (fun c => find_project_dirs cfg c (depth - 1) [])
                            (iterdir path)
    else [].
Proof.
  unfold find_project_dirs.
  destruct (depth <? 0) eqn:Hd.
  - apply Z.ltb_lt in Hd. now replace (Z.to_nat (depth + 1)) with 0%nat by lia.
  - apply Z.ltb_ge in Hd.
    replace (Z.to_nat (depth + 1)) with (S (Z.to_nat depth)) by lia.
    rewrite find_project_dirs_rec_step.
    apply Z.ltb_ge in Hd. rewrite Hd.
    replace (Z.to_nat (depth - 1 + 1)) with (Z.to_nat depth) by lia.
    reflexivity.
Qed.

Lemma on_the_way_all top rel :
  on_the_way top rel (List.length rel) = mkPath (root top) (parts top ++ rel).
Proof. unfold on_the_way. now rewrite firstn_all. Qed.

(** What the walk records, it has reached. *)
Lemma find_project_dirs_rec_walked fuel cfg : forall path depth p,
  In p (find_project_dirs_rec fuel cfg path depth []) -> walked path depth p.
Proof.
  induction fuel as [|fuel IH]; intros path depth p Hin; [destruct Hin|].
  rewrite find_project_dirs_rec_step in Hin.
  assert (Hhere : 0 <= depth -> is_symlink path || is_dir path = true ->
                  p = path -> walked path depth p).
  { intros Hd Hk ->. exists []. rewrite on_the_way_0.
    split; [reflexivity|]. split; [simpl; lia|].
    split; [intros k Hk'; simpl in Hk'; lia | exact Hk]. }
  destruct (depth <? 0) eqn:Hd; [destruct Hin|]. apply Z.ltb_ge in Hd.
  destruct (is_symlink path) eqn:Hl.
  { destruct Hin as [<-|[]]. apply Hhere; auto. }
  destruct (is_dir path) eqn:Hdir; [|destruct Hin].
  destruct (Str.startswith (name path) ".") eqn:Hdot.
  { destruct Hin as [<-|[]]. apply Hhere; auto. }
  destruct (path_is_git_repo path) eqn:Hgit.
  { destruct Hin as [<-|[]]. apply Hhere; auto. }
  destruct Hin as [<-|Hin]; [apply Hhere; auto|].
  apply in_flat_map in Hin. destruct Hin as [c [Hc Hin]].
  unfold iterdir in Hc. apply in_map_iff in Hc. destruct Hc as [n [<- Hn]].
  apply IH in Hin. destruct Hin as [rel [Hp [Hlen [Hway Hkind]]]].
  exists (n :: rel). split; [|split; [|split]].
  - simpl List.length. now rewrite on_the_way_S.
  - simpl List.length. lia.
  - intros [|k] Hk'.
    + rewrite on_the_way_0. split; [|exact Hn].
      unfold descended. repeat split; try assumption.
      unfold path_is_git_repo in Hgit. rewrite Hdir in Hgit. exact Hgit.
    + rewrite on_the_way_S. apply Hway. simpl in Hk'. lia.
  - exact Hkind.
Qed.

(** What the walk can reach, it records. *)
Lemma walked_recorded cfg rel : forall top d,
  Z.of_nat (List.length rel) <= d ->
  (forall k, (k < List.length rel)%nat ->
     descended (on_the_way top rel k) /\
     In (nth k rel "") (listdir (on_the_way top rel k))) ->
  is_symlink (on_the_way top rel (List.length rel))
  || is_dir (on_the_way top rel (List.length rel)) = true ->
  In (on_the_way top rel (List.length rel)) (find_project_dirs cfg top d []).
Proof.
  induction rel as [|n rel IH]; intros top d Hlen Hway Hkind;
    rewrite find_project_dirs_unfold.
  - simpl in Hlen. apply Z.ltb_ge in Hlen. rewrite Hlen.
    simpl List.length in *. rewrite on_the_way_0 in *.
    destruct (is_symlink top); [now left|]. simpl in Hkind. rewrite Hkind.
    destruct (Str.startswith (name top) "."); [now left|].
    destruct (path_is_git_repo top); now left.
  - simpl List.length in *.
    assert (Hd : (d <? 0) = false) by (apply Z.ltb_ge; lia). rewrite Hd.
    destruct (Hway 0%nat) as [[Hl [Hdir [Hdot Hgit]]] Hn]; [lia|].
    rewrite on_the_way_0 in *. simpl in Hn.
    rewrite Hl, Hdir, Hdot. unfold path_is_git_repo. rewrite Hdir, Hgit. simpl.
    right. apply in_flat_map.
    exists (mkPath (root top) (parts top ++ [n])). split.
    + unfold iterdir. apply in_map_iff. now exists n.
    + rewrite on_the_way_S in *. apply IH; [lia| |exact Hkind].
      intros k Hk. specialize (Hway (S k)). rewrite on_the_way_S in Hway.
      apply Hway. lia.
Qed.

Lemma NoDup_map_injective {A B} (g : A -> B) (l : list A) :
  (forall a b, g a = g b -> a = b) -> NoDup l -> NoDup (map g l).
Proof.
  intros Hg. induction 1 as [|x l Hx Hl IH]; simpl; constructor; [|exact IH].
  intros Hin. apply in_map_iff in Hin. destruct Hin as [y [Hy Hin]].
  apply Hg in Hy. now subst y.
Qed.

Lemma NoDup_flat_map {A B} (f : A -> list B) (l : list A) :
  NoDup l ->
  (forall x, In x l -> NoDup (f x)) ->
  (forall x y b, In x l -> In y l -> In b (f x) -> In b (f y) -> x = y) ->
  NoDup (flat_map f l).
Proof.
  induction l as [|x l IH]; intros Hl Hf Hsep; simpl; [constructor|].
  inversion Hl as [|x' l' Hx Hl']; subst.
  assert (Hrest : NoDup (flat_map f l)).
  { apply IH; [exact Hl' | |].
    - intros y Hy. apply Hf. now right.
    - intros y z b Hy Hz. apply Hsep; now right. }
  assert (Hhead : NoDup (f x)) by (apply Hf; now left).
  assert (Hdisj : forall b, In b (f x) -> ~ In b (flat_map f l)).
  { intros b Hb Hin. apply in_flat_map in Hin. destruct Hin as [y [Hy Hby]].
    apply Hx. rewrite (Hsep x y b); auto; [now left | now right]. }
  clear Hf Hsep IH. induction (f x) as [|b bs IHb]; simpl; [exact Hrest|].
  inversion Hhead as [|b' bs' Hb Hbs]; subst. constructor.
  - rewrite in_app_iff. intros [H|H]; [now apply Hb|].
    apply (Hdisj b); [now left | exact H].
  - apply IHb; [exact Hbs|]. intros c Hc. apply Hdisj. now right.
Qed.

(** With listings that name each entry once, the walk records each path
    once. *)
Lemma find_project_dirs_rec_NoDup fuel cfg :
  (forall p, NoDup (listdir p)) ->
  forall path depth, NoDup (find_project_dirs_rec fuel cfg path depth []).
Proof.
  intros Hls. induction fuel as [|fuel IH]; intros path depth; [constructor|].
  rewrite find_project_dirs_rec_step.
  repeat match goal with
         | |- context [if ?b then _ else _] => destruct b
         end; try (constructor; [intros []|constructor]); try constructor.
  - intros Hin. apply in_flat_map in Hin. destruct Hin as [c [Hc Hin]].
    unfold iterdir in Hc. apply in_map_iff in Hc. destruct Hc as [n [<- _]].
    apply find_project_dirs_rec_sound in Hin.
    destruct Hin as [_ [rel [Hparts _]]]. simpl in Hparts.
    rewrite <- app_assoc in Hparts.
    rewrite <- (app_nil_r (parts path)) in Hparts at 1.
    apply app_inv_head in Hparts. discriminate Hparts.
  - apply NoDup_flat_map.
    + unfold iterdir. apply NoDup_map_injective; [|apply Hls].
      intros a b H. injection H as H. apply app_inv_head in H. now injection H.
    + intros c _. apply IH.
    + intros c1 c2 b Hc1 Hc2 Hb1 Hb2.
      unfold iterdir in Hc1, Hc2.
      apply in_map_iff in Hc1. destruct Hc1 as [n1 [<- _]].
      apply in_map_iff in Hc2. destruct Hc2 as [n2 [<- _]].
      apply find_project_dirs_rec_sound in Hb1, Hb2.
      destruct Hb1 as [_ [r1 [H1 _]]]. destruct Hb2 as [_ [r2 [H2 _]]].
      simpl in H1, H2. rewrite H1 in H2. rewrite <- !app_assoc in H2.
      apply app_inv_head in H2. simpl in H2. now injection H2 as ->.
Qed.

(** X1. The walk records exactly the paths it can reach: a path is among
    the candidates if and only if it lies at most [d] levels below the
    root, every directory on the way to it lists the next name and is a
    directory to go below (no symbolic link, no leading dot, no [.git]),
    and the path itself is a symbolic link or a directory. Plain files are
    never candidates. *)
Theorem X1_walk_records_exactly_the_reachable cfg (top : Path) (d : Z) (p : Path) :
  In p (find_project_dirs cfg top d []) <-> walked top d p.
Proof.
  split.
  - apply find_project_dirs_rec_walked.
  - intros [rel [-> [Hlen [Hway Hkind]]]]. now apply walked_recorded.
Qed.

(** X2. A deeper walk loses nothing: every candidate found with depth [d]
    is found with any depth [d'] above it. *)
Theorem X2_deeper_walk_finds_more cfg (top : Path) (d d' : Z) (p : Path) :
  d <= d' ->
  In p (find_project_dirs cfg top d []) -> In p (find_project_dirs cfg top d' []).
Proof.
  intros Hd Hin. apply find_project_dirs_rec_walked in Hin.
  destruct Hin as [rel [-> [Hlen [Hway Hkind]]]].
  apply walked_recorded; [lia | exact Hway | exact Hkind].
Qed.

(** X3. When no directory listing names an entry twice, the walk records no
    path twice, so the selector's [set] removes nothing from it. *)
Theorem X3_walk_has_no_duplicates cfg (top : Path) (d : Z) :
  (forall p, NoDup (listdir p)) ->
  NoDup (find_project_dirs cfg top d []) /\
  nodup Path_eq_dec (find_project_dirs cfg top d []) = find_project_dirs cfg top d [].
Proof.
  intros Hls.
  assert (H : NoDup (find_project_dirs cfg top d []))
    by now apply find_project_dirs_rec_NoDup.
  split; [exact H | now apply nodup_fixed_point].
Qed.

(** *** The registry, the launch and the attach, end to end *)

(** The listing is the one command of a lookup, which never raises. *)
Lemma find_tmux_session_by_path_runs cfg target w :
  exists found out,
    find_tmux_session_by_path cfg target w
    = (Ok found, mkWorld (ran w ++ [tmux_ls]) out) /\
    (found <> None -> out = printed w).
Proof.
  unfold find_tmux_session_by_path, bind, subprocess_run, print, ret. simpl.
  repeat match goal with
         | |- context [if ?b then _ else _] => destruct b; simpl
         end; do 2 eexists; (split; [reflexivity|]); intros H; congruence.
Qed.

(** X4. A session listing that ends with a non-zero status never stops the
    run: the lookup answers [None] and raises nothing. It stays silent when
    the status is 1 and the error output starts with [no server running],
    and prints one warning line otherwise. *)
Theorem X4_registry_lookup_fails_open cfg (target : Path) (w : World) :
  let result := process (ran w) tmux_ls in
  let outcome := find_tmux_session_by_path cfg target w in
  returncode result <> 0 ->
  fst outcome = Ok None /\
  ran (snd outcome) = ran w ++ [tmux_ls] /\
  printed (snd outcome) =
    if (returncode result =? 1) && Str.startswith (stderr result) "no server running"
    then printed w
    else printed w ++
         ["Some unknown error has occurred while looking for tmux sessions."].
Proof.
  intros result outcome Hrc. unfold outcome, find_tmux_session_by_path.
  unfold bind, subprocess_run, print, ret. simpl. fold result.
  destruct ((returncode result =? 1)
            && Str.startswith (stderr result) "no server running"); simpl.
  - now repeat split.
  - apply Z.eqb_neq in Hrc. rewrite Hrc. simpl. now repeat split.
Qed.

(** X5. When the lookup finds a session with a non-empty name, the run
    attaches to it and does nothing else: the listing and the attach are
    its only commands, no session is created, and it returns 0 whatever
    the exit status of the attach command. *)
Theorem X5_existing_session_is_attached cfg (path : Path) (w : World) (session : string) :
  let outcome := find_session_or_start_then_attach cfg path w in
  is_dir path = true ->
  fst (find_tmux_session_by_path cfg path w) = Ok (Some session) ->
  session <> "" ->
  fst outcome = Ok 0 /\
  ran (snd outcome) = ran w ++ [tmux_ls; attach_invocation session] /\
  printed (snd outcome) = printed w.
Proof.
  intros outcome Hdir Hfound Hne.
  destruct (find_tmux_session_by_path_runs cfg path w) as [found [out [E Hout]]].
  rewrite E in Hfound. simpl in Hfound. injection Hfound as ->.
  rewrite Hout in E by discriminate.
  unfold outcome, find_session_or_start_then_attach. rewrite Hdir. simpl.
  rewrite (bind_Ok _ _ _ _ _ E).
  destruct session as [|c s]; [contradiction|].
  unfold attach_to_tmux_session, bind, subprocess_run, ret. simpl.
  rewrite <- app_assoc. now repeat split.
Qed.

(** X6. A matching line of the listing whose session name is empty does
    not count as a session: the run creates a new session named after the
    directory, as if nothing had matched. *)
Theorem X6_empty_session_name_is_no_match cfg (path : Path) (w : World) :
  let outcome := find_session_or_start_then_attach cfg path w in
  is_dir path = true ->
  fst (find_tmux_session_by_path cfg path w) = Ok (Some "") ->
  exists rest,
    ran (snd outcome) = ran w ++ tmux_ls :: new_session (name path) path :: rest.
Proof.
  intros outcome Hdir Hfound.
  destruct (find_tmux_session_by_path_runs cfg path w) as [found [out [E _]]].
  rewrite E in Hfound. simpl in Hfound. injection Hfound as ->.
  unfold outcome, find_session_or_start_then_attach. rewrite Hdir. simpl.
  rewrite (bind_Ok _ _ _ _ _ E).
  destruct (start_standard_tmux_session_ran cfg (name path) path
              (mkWorld (ran w ++ [tmux_ls]) out)) as [steps Hsteps].
  destruct (start_standard_tmux_session cfg (name path) path
              (mkWorld (ran w ++ [tmux_ls]) out)) as [[[]|e] w'] eqn:Es;
    simpl in Hsteps.
  - rewrite (bind_Ok _ _ _ _ _ Es).
    rewrite (bind_Ok _ _ _ _ _ (attach_to_tmux_session_runs (name path) w')).
    exists (steps ++ [attach_invocation (name path)]). simpl. rewrite Hsteps.
    now rewrite <- !app_assoc.
  - rewrite (bind_Raise _ _ _ _ _ Es). exists steps. simpl. rewrite Hsteps.
    now rewrite <- !app_assoc.
Qed.

(** How a plan's run ends: after some of its steps, in order, either all
    of them or up to one that failed. *)
Lemma for_each_outcome plan : forall hist out,
  exists k,
    snd (for_each plan
           (fun cmd => subprocess_run true (mkInvocation cmd None) ;;; ret tt)
           (mkWorld hist out))
    = mkWorld (hist ++ step_invocations (firstn k plan)) out /\
    (fst (for_each plan
            (fun cmd => subprocess_run true (mkInvocation cmd None) ;;; ret tt)
            (mkWorld hist out)) = Ok tt \/
     exists code cmd,
       fst (for_each plan
              (fun cmd => subprocess_run true (mkInvocation cmd None) ;;; ret tt)
              (mkWorld hist out)) = Raise (CalledProcessError code cmd) /\
       code <> 0 /\ In cmd plan).
Proof.
  induction plan as [|c plan IH]; intros hist out.
  - exists 0%nat. simpl. rewrite app_nil_r. split; [reflexivity | now left].
  - rewrite for_each_step.
    destruct (returncode (process hist (mkInvocation c None)) =? 0) eqn:E.
    + destruct (IH (hist ++ [mkInvocation c None]) out) as [k [Hw Hr]].
      exists (S k). rewrite Hw. simpl. rewrite <- app_assoc.
      split; [reflexivity|].
      destruct Hr as [Hr|[code [cmd [Hr [Hc Hin]]]]]; [now left|].
      right. exists code, cmd. repeat split; auto; now right.
    + exists 1%nat. simpl. split; [reflexivity|]. right.
      exists (returncode (process hist (mkInvocation c None))), c.
      apply Z.eqb_neq in E. repeat split; auto.
Qed.

(** How a launch fails: at the session's creation or at a step of the
    plan, having run the steps before it. *)
Lemma start_standard_tmux_session_failure cfg session_name path w e w' :
  start_standard_tmux_session cfg session_name path w = (Raise e, w') ->
  exists code cmd k,
    e = CalledProcessError code cmd /\ code <> 0 /\
    (cmd = argv (new_session session_name path) \/
     In cmd (tmux_session_factory cfg session_name path)) /\
    ran w' = ran w ++ new_session session_name path
               :: step_invocations
                    (firstn k (tmux_session_factory cfg session_name path)).
Proof.
  destruct (returncode (process (ran w) (new_session session_name path)) =? 0)
    eqn:Enew.
  - apply Z.eqb_eq in Enew.
    rewrite (start_standard_tmux_session_plan cfg session_name path w Enew).
    destruct (for_each_outcome (tmux_session_factory cfg session_name path)
                (ran w ++ [new_session session_name path]) (printed w))
      as [k [Hw Hr]].
    intros H. rewrite H in Hw, Hr. simpl in Hw, Hr.
    destruct Hr as [Hr|[code [cmd [Hr [Hc Hin]]]]]; [discriminate Hr|].
    injection Hr as ->. exists code, cmd, k. subst w'. simpl.
    rewrite <- app_assoc. repeat split; auto.
  - unfold start_standard_tmux_session, bind at 1, subprocess_run at 1.
    rewrite Enew. simpl. intros H. injection H as <- <-.
    exists (returncode (process (ran w) (new_session session_name path))),
      (argv (new_session session_name path)), 0%nat.
    apply Z.eqb_neq in Enew. simpl. repeat split; auto.
Qed.

(** X7. A launch that fails is not attached to. When no session matches
    and the run ends with an exception, that exception is the
    [CalledProcessError] of the session's creation or of a step of the
    plan, with a non-zero status, and the commands run are the listing,
    the creation and the first steps of the plan: no attach. *)
Theorem X7_failed_launch_is_not_attached cfg (path : Path) (w : World) (e : Exn) :
  let outcome := find_session_or_start_then_attach cfg path w in
  let plan := tmux_session_factory cfg (name path) path in
  is_dir path = true ->
  fst (find_tmux_session_by_path cfg path w) = Ok None ->
  fst outcome = Raise e ->
  exists code cmd k,
    e = CalledProcessError code cmd /\ code <> 0 /\
    (cmd = argv (new_session (name path) path) \/ In cmd plan) /\
    ran (snd outcome)
    = ran w ++ tmux_ls :: new_session (name path) path
        :: step_invocations (firstn k plan).
Proof.
  intros outcome plan Hdir Hfound.
  destruct (find_tmux_session_by_path_runs cfg path w) as [found [out [E _]]].
  rewrite E in Hfound. simpl in Hfound. injection Hfound as ->.
  unfold outcome, find_session_or_start_then_attach. rewrite Hdir. simpl.
  rewrite (bind_Ok _ _ _ _ _ E).
  destruct (start_standard_tmux_session cfg (name path) path
              (mkWorld (ran w ++ [tmux_ls]) out)) as [[[]|e'] w'] eqn:Es.
  - rewrite (bind_Ok _ _ _ _ _ Es).
    rewrite (bind_Ok _ _ _ _ _ (attach_to_tmux_session_runs (name path) w')).
    intros H. discriminate H.
  - rewrite (bind_Raise _ _ _ _ _ Es). simpl. intros H. injection H as <-.
    destruct (start_standard_tmux_session_failure _ _ _ _ _ _ Es)
      as [code [cmd [k [He [Hc [Hcmd Hran]]]]]].
    exists code, cmd, k. rewrite Hran. simpl. rewrite <- app_assoc.
    repeat split; auto.
Qed.

(** The [--sessions] mode, whatever its two commands answer. *)
Lemma select_and_swap_runs w :
  select_and_swap_to_active_session w =
    let listing := process (ran w) list_sessions in
    let chosen := process (ran w ++ [list_sessions])
                          (choose_session (stdout listing)) in
    if returncode chosen =? 0 then
      (Ok tt,
       mkWorld (ran w ++ [list_sessions; choose_session (stdout listing);
                          attach_invocation (Str.strip (stdout chosen))])
               (printed w))
    else
      (Ok tt,
       mkWorld (ran w ++ [list_sessions; choose_session (stdout listing)])
               (printed w ++ ["fzf selection cancelled."])).
Proof.
  unfold select_and_swap_to_active_session, attach_to_tmux_session, bind,
    subprocess_run, print, ret, list_sessions, choose_session.
  simpl.
  destruct (returncode _ =? 0); simpl; now rewrite <- !app_assoc.
Qed.

(** X8. In the [--sessions] mode the run always returns 0 and raises
    nothing, and the directory arguments are never looked at. It lists the
    session names, hands the listing to [fzf], and attaches to what [fzf]
    printed, stripped, exactly when [fzf] exits 0; otherwise it prints that
    the selection was cancelled and attaches to nothing. *)
Theorem X8_sessions_mode cfg (args : Args) (w : World) :
  let listing := process (ran w) list_sessions in
  let chosen := process (ran w ++ [list_sessions])
                        (choose_session (stdout listing)) in
  let outcome := main cfg args w in
  arg_sessions args = true ->
  fst outcome = Ok 0 /\
  (returncode chosen = 0 ->
   ran (snd outcome)
   = ran w ++ [list_sessions; choose_session (stdout listing);
               attach_invocation (Str.strip (stdout chosen))] /\
   printed (snd outcome) = printed w) /\
  (returncode chosen <> 0 ->
   ran (snd outcome) = ran w ++ [list_sessions; choose_session (stdout listing)] /\
   printed (snd outcome) = printed w ++ ["fzf selection cancelled."]).
Proof.
  intros listing chosen outcome Hs.
  unfold outcome, main. rewrite Hs. unfold bind. rewrite select_and_swap_runs.
  cbv zeta. fold listing. fold chosen.
  destruct (returncode chosen =? 0) eqn:E; simpl.
  - apply Z.eqb_eq in E. repeat split; auto; contradiction.
  - apply Z.eqb_neq in E. repeat split; auto; contradiction.
Qed.

Lemma returns_only_bind {A B} Q (m : M A) (k : A -> M B) :
  (forall a, returns_only Q (k a)) -> returns_only Q (bind m k).
Proof.
  intros Hk w b H. unfold bind in H.
  destruct (m w) as [[a|e] w'] eqn:E; [now apply (Hk a w') | discriminate H].
Qed.

Lemma returns_only_ret {A} (Q : A -> Prop) a : Q a -> returns_only Q (ret a).
Proof. intros HQ w b H. simpl in H. now injection H as <-. Qed.

Lemma returns_only_raise {A} (Q : A -> Prop) e : returns_only Q (@raise A e).
Proof. intros w b H. discriminate H. Qed.

Lemma find_session_or_start_then_attach_returns cfg path :
  returns_only (fun n => n = 0) (find_session_or_start_then_attach cfg path).
Proof.
  unfold find_session_or_start_then_attach.
  destruct (negb (is_dir path)); [apply returns_only_raise|].
  apply returns_only_bind. intros [[|c s]|];
    repeat (apply returns_only_bind; intros ?); now apply returns_only_ret.
Qed.

(** The selection answers [None] only to a cancelled [fzf]. *)
Lemma send_list_of_paths_to_fzf_None cfg paths parent w :
  fst (send_list_of_paths_to_fzf cfg paths parent w) = Ok None ->
  exists rels,
    candidate_list paths parent = inr rels /\
    returncode (process (ran w) (fzf_invocation cfg rels parent)) = 130.
Proof.
  unfold send_list_of_paths_to_fzf.
  destruct (candidate_list paths parent) as [p|rels]; [discriminate|].
  unfold bind, subprocess_run, print, ret, raise. simpl.
  destruct (returncode _ =? 0) eqn:E0.
  - destruct (is_dir _); discriminate.
  - destruct (returncode _ =? 130) eqn:E130; [|discriminate].
    intros _. exists rels. apply Z.eqb_eq in E130. now split.
Qed.

(** X9. The exit status of a run that ends without an exception is 0 or
    1, and it is 1 only in a discovery run (no [--sessions], no directory
    argument) whose [fzf] ended with status 130. *)
Theorem X9_exit_status cfg (args : Args) (w : World) (n : Z) :
  let parent := resolve (arg_parent_dir args) in
  fst (main cfg args w) = Ok n ->
  (n = 0 \/ n = 1) /\
  (n = 1 ->
   arg_sessions args = false /\ arg_directory args = None /\
   exists rels,
     candidate_list (find_project_dirs cfg parent (arg_depth args) []) parent
     = inr rels /\
     returncode (process (ran w) (fzf_invocation cfg rels parent)) = 130).
Proof.
  intros parent. unfold main.
  destruct (arg_sessions args).
  { unfold bind. rewrite select_and_swap_runs. cbv zeta.
    destruct (returncode _ =? 0); simpl; intros H; injection H as <-;
      (split; [now left | discriminate]). }
  destruct (arg_directory args) as [directory|].
  { destruct (negb (is_dir (resolve directory))); [discriminate|].
    intros H. apply find_session_or_start_then_attach_returns in H. subst n.
    split; [now left | discriminate]. }
  fold parent.
  destruct (negb (is_dir parent)); [discriminate|].
  destruct (find_project_dirs cfg parent (arg_depth args) []) as [|p0 ps] eqn:Ew;
    [discriminate|].
  unfold bind at 1.
  destruct (send_list_of_paths_to_fzf cfg (p0 :: ps) parent w)
    as [[[sel|]|e] w'] eqn:Es; [| |discriminate].
  - intros H. apply find_session_or_start_then_attach_returns in H. subst n.
    split; [now left | discriminate].
  - simpl. intros H. injection H as <-. split; [now right|]. intros _.
    split; [reflexivity|]. split; [reflexivity|].
    apply (send_list_of_paths_to_fzf_None cfg (p0 :: ps) parent w).
    now rewrite Es.
Qed.

(** *** Which commands a run starts *)

Lemma runs_ret {A} Q (a : A) : runs Q (ret a).
Proof. intros w. exists []. simpl. now rewrite app_nil_r. Qed.

Lemma runs_raise {A} Q e : runs Q (@raise A e).
Proof. intros w. exists []. simpl. now rewrite app_nil_r. Qed.

Lemma runs_print Q args : runs Q (print args).
Proof. intros w. exists []. simpl. now rewrite app_nil_r. Qed.

Lemma runs_subprocess_run (Q : Invocation -> Prop) check inv :
  Q inv -> runs Q (subprocess_run check inv).
Proof.
  intros HQ w. exists [inv]. unfold subprocess_run.
  destruct (check && negb (returncode (process (ran w) inv) =? 0)); simpl;
    (split; [reflexivity | now constructor]).
Qed.

Lemma runs_bind {A B} Q (m : M A) (k : A -> M B) :
  runs Q m -> (forall a, runs Q (k a)) -> runs Q (bind m k).
Proof.
  intros Hm Hk w. unfold bind. destruct (Hm w) as [l [Hl HQ]].
  destruct (m w) as [[a|e] w'] eqn:E; simpl in Hl.
  - destruct (Hk a w') as [l' [Hl' HQ']]. exists (l ++ l').
    rewrite Hl', Hl, app_assoc. split; [reflexivity | now apply Forall_app].
  - exists l. now split.
Qed.

Lemma runs_for_each {A} Q (body : A -> M unit) l :
  (forall x, In x l -> runs Q (body x)) -> runs Q (for_each l body).
Proof.
  induction l as [|x l IH]; intros Hb; simpl.
  - apply runs_ret.
  - apply runs_bind; [apply Hb; now left|].
    intros _. apply IH. intros y Hy. apply Hb. now right.
Qed.

Lemma runs_weaken {A} (Q Q' : Invocation -> Prop) (m : M A) :
  (forall inv, Q inv -> Q' inv) -> runs Q m -> runs Q' m.
Proof.
  intros HQ Hm w. destruct (Hm w) as [l [Hl Hall]]. exists l.
  split; [exact Hl|]. eapply Forall_impl; [|exact Hall]. exact HQ.
Qed.

Lemma attach_runs_tmux session_name : runs tmux_command (attach_to_tmux_session session_name).
Proof.
  unfold attach_to_tmux_session. apply runs_bind; [|intros; apply runs_ret].
  apply runs_subprocess_run. unfold tmux_command, attach_invocation.
  now destruct (getenv "TMUX") as [[|c s]|].
Qed.

Lemma find_tmux_session_by_path_runs_tmux cfg path :
  runs tmux_command (find_tmux_session_by_path cfg path).
Proof.
  unfold find_tmux_session_by_path.
  apply runs_bind; [now apply runs_subprocess_run|].
  intros result.
  repeat match goal with
         | |- runs _ (if ?b then _ else _) => destruct b
         end;
    repeat first [apply runs_ret | apply runs_print
                 | apply runs_bind; [|intros ?]].
Qed.

Lemma find_session_or_start_then_attach_runs_tmux cfg path :
  (forall n p cmd, In cmd (tmux_session_factory cfg n p) -> hd "" cmd = "tmux") ->
  runs tmux_command (find_session_or_start_then_attach cfg path).
Proof.
  intros Hplan. unfold find_session_or_start_then_attach.
  destruct (negb (is_dir path)); [apply runs_raise|].
  apply runs_bind; [apply find_tmux_session_by_path_runs_tmux|].
  intros [[|c s]|].
  3,1: unfold start_standard_tmux_session;
    repeat first
      [ apply attach_runs_tmux | apply runs_ret
      | apply runs_subprocess_run; reflexivity
      | apply runs_for_each; intros cmd Hcmd;
        apply runs_bind; [apply runs_subprocess_run; exact (Hplan _ _ _ Hcmd)|];
        intros ?
      | apply runs_bind; [|intros ?] ].
  apply runs_bind; [apply attach_runs_tmux | intros; apply runs_ret].
Qed.

Lemma send_list_of_paths_to_fzf_runs_fzf cfg paths parent :
  runs fzf_command (send_list_of_paths_to_fzf cfg paths parent).
Proof.
  unfold send_list_of_paths_to_fzf.
  destruct (candidate_list paths parent) as [p|rels]; [apply runs_raise|].
  apply runs_bind; [apply runs_subprocess_run; apply fzf_cmd_head|].
  intros result.
  repeat match goal with
         | |- runs _ (if ?b then _ else _) => destruct b
         end;
    repeat first [apply runs_ret | apply runs_raise | apply runs_print
                 | apply runs_bind; [|intros ?]].
Qed.

Lemma standard_tmux_session_tmux session_name path cmd :
  In cmd (standard_tmux_session session_name path) -> hd "" cmd = "tmux".
Proof.
  unfold standard_tmux_session.
  destruct (detect_env_activation path) as [[|c cs]|]; simpl;
    intros H; repeat (destruct H as [<-|H]; [reflexivity|]); destruct H.
Qed.

(** X10. Every external command of a run is a [tmux] or an [fzf] command
    (the layout factory producing [tmux] commands, as the standard one
    does), and the commands already run are left as they were. Outside
    the [--sessions] mode, a run with a directory argument starts [tmux]
    commands only, never [fzf]. *)
Theorem X10_only_tmux_and_fzf cfg (args : Args) (w : World) :
  ((forall n p cmd, In cmd (tmux_session_factory cfg n p) -> hd "" cmd = "tmux") ->
   exists l,
     ran (snd (main cfg args w)) = ran w ++ l /\
     Forall (fun inv => tmux_command inv \/ fzf_command inv) l /\
     (arg_sessions args = false -> arg_directory args <> None ->
      Forall tmux_command l)) /\
  (forall n p cmd, In cmd (standard_tmux_session n p) -> hd "" cmd = "tmux").
Proof.
  split; [|intros n p cmd; apply standard_tmux_session_tmux].
  intros Hplan.
  assert (Hany : runs (fun inv => tmux_command inv \/ fzf_command inv)
                   (main cfg args)).
  { unfold main.
    destruct (arg_sessions args).
    { apply runs_bind; [|intros; apply runs_ret].
      intros w0. rewrite select_and_swap_runs. cbv zeta.
      assert (Hattach : forall session_name,
                 tmux_command (attach_invocation session_name)).
      { intros session_name. unfold tmux_command, attach_invocation.
        now destruct (getenv "TMUX") as [[|c s]|]. }
      destruct (returncode _ =? 0); simpl; eexists; (split; [reflexivity|]).
      - apply Forall_cons; [now left|]. apply Forall_cons; [now right|].
        apply Forall_cons; [left; apply Hattach | apply Forall_nil].
      - apply Forall_cons; [now left|]. apply Forall_cons; [now right|].
        apply Forall_nil. }
    destruct (arg_directory args) as [directory|].
    { destruct (negb (is_dir (resolve directory))); [apply runs_raise|].
      eapply runs_weaken;
        [|apply find_session_or_start_then_attach_runs_tmux; exact Hplan].
      intros inv H. now left. }
    destruct (negb (is_dir (resolve (arg_parent_dir args)))); [apply runs_raise|].
    destruct (find_project_dirs cfg _ _ []); [apply runs_raise|].
    apply runs_bind.
    - eapply runs_weaken; [|apply send_list_of_paths_to_fzf_runs_fzf].
      intros inv H. now right.
    - intros [sel|].
      + eapply runs_weaken;
          [|apply find_session_or_start_then_attach_runs_tmux; exact Hplan].
        intros inv H. now left.
      + apply runs_bind; [apply runs_print | intros; apply runs_ret]. }
  destruct (Hany w) as [l [Hl Hall]]. exists l.
  split; [exact Hl|]. split; [exact Hall|].
  intros Hs Hd.
  assert (Hdir : runs tmux_command (main cfg args)).
  { unfold main. rewrite Hs.
    destruct (arg_directory args) as [directory|]; [|contradiction].
    destruct (negb (is_dir (resolve directory))); [apply runs_raise|].
    now apply find_session_or_start_then_attach_runs_tmux. }
  destruct (Hdir w) as [l' [Hl' Hall']].
  rewrite Hl in Hl'. apply app_inv_head in Hl'. now subst l'.
Qed.

(** X11. Outside the [--sessions] mode, a run whose validation fails
    ends with the [ValueError] of that failure, having started no command
    and printed nothing: "is not a valid directory", naming the resolved
    path, for a directory argument or else a parent that does not resolve
    to a directory; "No subdirectories found", naming the resolved parent,
    for a valid parent with a negative depth. *)
Theorem X11_failed_validation_runs_nothing cfg (args : Args) (w : World) :
  arg_sessions args = false ->
  (forall directory,
      arg_directory args = Some directory ->
      is_dir (resolve directory) = false ->
      main cfg args w
      = (Raise (ValueError (NotAValidDirectory (resolve directory))), w)) /\
  (arg_directory args = None ->
   is_dir (resolve (arg_parent_dir args)) = false ->
   main cfg args w
   = (Raise (ValueError (NotAValidDirectory (resolve (arg_parent_dir args)))), w)) /\
  (arg_directory args = None ->
   is_dir (resolve (arg_parent_dir args)) = true ->
   arg_depth args < 0 ->
   main cfg args w
   = (Raise (ValueError (NoSubdirectoriesFound (resolve (arg_parent_dir args)))), w)).
Proof.
  intros Hs. unfold main. rewrite Hs. split; [|split].
  - intros directory -> Hd. now rewrite Hd.
  - intros -> Hp. now rewrite Hp.
  - intros -> Hp Hneg. rewrite Hp. simpl.
    rewrite find_project_dirs_unfold. apply Z.ltb_lt in Hneg. now rewrite Hneg.
Qed.

(** *** The candidates and the lines *)

Lemma strip_prefix_Some pre : forall l rest,
  strip_prefix pre l = Some rest -> l = pre ++ rest.
Proof.
  induction pre as [|a pre IH]; intros l rest H; simpl in H.
  - now injection H as ->.
  - destruct l as [|b l]; [discriminate H|].
    destruct (String.eqb a b) eqn:E; [|discriminate H].
    apply String.eqb_eq in E. subst b. simpl. f_equal. now apply IH.
Qed.

(** Joining undoes making relative. *)
Lemma relative_to_joinpath p parent r :
  relative_to p parent = Some r -> root r = NoRoot /\ joinpath parent r = p.
Proof.
  unfold relative_to, Root_eqb.
  destruct (Root_eq_dec (root p) (root parent)) as [Hr|]; [|discriminate].
  destruct (strip_prefix (parts parent) (parts p)) as [rest|] eqn:E; [|discriminate].
  intros H. injection H as <-. split; [reflexivity|].
  apply strip_prefix_Some in E. unfold joinpath. simpl.
  rewrite <- Hr, <- E. apply path_eta.
Qed.

(** Making relative undoes joining. *)
Lemma joinpath_relative_to parent r :
  root r = NoRoot -> relative_to (joinpath parent r) parent = Some r.
Proof.
  intros Hr. unfold joinpath. rewrite Hr.
  rewrite (relative_to_below _ parent (parts r)); [|reflexivity|reflexivity].
  destruct r as [rr rp]. simpl in Hr. now subst rr.
Qed.

Lemma relative_all_joinpath parent : forall l rels,
  relative_all l parent = inr rels ->
  map (joinpath parent) rels = l /\ Forall (fun r => root r = NoRoot) rels.
Proof.
  induction l as [|p l IH]; intros rels H; simpl in H.
  - injection H as <-. now split.
  - destruct (relative_to p parent) as [r|] eqn:E; [|discriminate H].
    destruct (relative_all l parent) as [q|rs]; [discriminate H|].
    injection H as <-. destruct (IH rs eq_refl) as [Hm Hr].
    apply relative_to_joinpath in E. destruct E as [E1 E2].
    simpl. rewrite Hm, E2. split; [reflexivity | now constructor].
Qed.

Lemma relative_all_inl parent : forall l q,
  relative_all l parent = inl q -> In q l /\ relative_to q parent = None.
Proof.
  induction l as [|p l IH]; intros q H; simpl in H; [discriminate H|].
  destruct (relative_to p parent) as [r|] eqn:E.
  - destruct (relative_all l parent) as [q'|rs]; [|discriminate H].
    injection H as <-. destruct (IH q' eq_refl). split; [now right | assumption].
  - injection H as <-. split; [now left | exact E].
Qed.

(** X12. The lines offered stand for the candidates, one for one: joined
    to the parent, each relative path of the list is a candidate; every
    candidate has its relative path in the list; and no relative path
    occurs twice. *)
Theorem X12_candidates_round_trip (paths : list Path) (parent : Path)
    (rels : list Path) :
  candidate_list paths parent = inr rels ->
  (forall p, In p paths <-> exists r, In r rels /\ joinpath parent r = p) /\
  (forall r, In r rels -> root r = NoRoot /\ relative_to (joinpath parent r) parent = Some r) /\
  NoDup rels.
Proof.
  unfold candidate_list. intros H.
  assert (HP := sorted_by_perm str (nodup Path_eq_dec paths)).
  destruct (relative_all_joinpath parent _ _ H) as [Hm Hroot].
  assert (Hrel := relative_all_inr _ _ _ H).
  split; [|split].
  - intros p. rewrite <- (nodup_In Path_eq_dec). split.
    + intros Hin. eapply Permutation_in in Hin; [|exact HP].
      rewrite <- Hm in Hin. apply in_map_iff in Hin.
      destruct Hin as [r [Hr Hin]]. now exists r.
    + intros [r [Hin Hr]]. eapply Permutation_in; [symmetry; exact HP|].
      rewrite <- Hm, <- Hr. now apply in_map.
  - intros r Hin.
    assert (Hr : root r = NoRoot) by now apply (proj1 (Forall_forall _ _) Hroot).
    split; [exact Hr | now apply joinpath_relative_to].
  - apply (NoDup_map_inv (joinpath parent)). rewrite Hm.
    eapply Permutation_NoDup; [exact HP | apply NoDup_nodup].
Qed.

(** X13. [fzf] is not started over a candidate that is not below the
    parent: the selection then raises the [ValueError] of [relative_to],
    with nothing run and nothing printed; and that is the only way for it
    to raise this error. *)
Theorem X13_candidate_outside_parent cfg (paths : list Path) (parent : Path)
    (w : World) :
  (exists p, In p paths /\ relative_to p parent = None) <->
  (exists q, send_list_of_paths_to_fzf cfg paths parent w
             = (Raise (ValueError (NotInSubpath q parent)), w)).
Proof.
  unfold send_list_of_paths_to_fzf.
  destruct (candidate_list paths parent) as [q|rels] eqn:E.
  - split; [intros _; now exists q|]. intros _.
    unfold candidate_list in E. apply relative_all_inl in E.
    destruct E as [Hin Hnone]. exists q. split; [|exact Hnone].
    apply (nodup_In Path_eq_dec).
    eapply Permutation_in; [symmetry; apply sorted_by_perm | exact Hin].
  - split.
    + intros [p [Hin Hnone]]. exfalso.
      unfold candidate_list in E. apply relative_all_inr in E.
      apply (nodup_In Path_eq_dec) in Hin.
      eapply Permutation_in in Hin; [|apply (sorted_by_perm str)].
      apply (in_map (fun p => relative_to p parent)) in Hin.
      rewrite E, Hnone in Hin. apply in_map_iff in Hin.
      destruct Hin as [r [Hr _]]. discriminate Hr.
    + intros [q H]. exfalso. revert H.
      unfold bind, subprocess_run, print, raise, ret. simpl.
      repeat match goal with
             | |- context [if ?b then _ else _] => destruct b; simpl
             end; intros H; discriminate H.
Qed.

Lemma find_session_or_start_then_attach_raises_kinds cfg path :
  raises_only
    (fun e => (exists p, e = ValueError (NotAValidDirectory p)) \/
              (exists code cmd, e = CalledProcessError code cmd))
    (find_session_or_start_then_attach cfg path).
Proof.
  unfold find_session_or_start_then_attach, start_standard_tmux_session.
  repeat first
    [ apply attach_raises
    | apply find_tmux_session_by_path_raises
    | raises_step ];
    intros; first [left; now eexists | right; now do 2 eexists].
Qed.

(** X14. The [ValueError] of [relative_to] never comes out of a run:
    every candidate of a walk lies below its root, so the candidates that
    [main] hands to the selection can all be written relative to the
    parent. *)
Theorem X14_relative_to_never_fails_in_a_run cfg (args : Args) (w : World) :
  (forall top d,
      exists rels, candidate_list (find_project_dirs cfg top d []) top = inr rels) /\
  (forall p q, fst (main cfg args w) <> Raise (ValueError (NotInSubpath p q))).
Proof.
  split; [intros top d; apply candidate_list_of_walk|].
  intros p q. unfold main.
  destruct (arg_sessions args).
  { unfold bind. rewrite select_and_swap_runs. cbv zeta.
    destruct (returncode _ =? 0); discriminate. }
  destruct (arg_directory args) as [directory|].
  { destruct (negb (is_dir (resolve directory))); simpl; [discriminate|].
    intros H. apply find_session_or_start_then_attach_raises_kinds in H.
    destruct H as [[p' H]|[code [cmd H]]]; discriminate H. }
  destruct (negb (is_dir (resolve (arg_parent_dir args)))); simpl; [discriminate|].
  destruct (candidate_list_of_walk cfg (resolve (arg_parent_dir args))
              (arg_depth args)) as [rels Hc].
  destruct (find_project_dirs cfg _ _ []) as [|p0 ps]; simpl; [discriminate|].
  unfold bind at 1.
  destruct (send_list_of_paths_to_fzf cfg (p0 :: ps) _ w) as [[[sel|]|e'] w'] eqn:Es.
  - intros H. apply find_session_or_start_then_attach_raises_kinds in H.
    destruct H as [[p' H]|[code [cmd H]]]; discriminate H.
  - discriminate.
  - simpl. intros H. injection H as ->.
    revert Es. unfold send_list_of_paths_to_fzf. rewrite Hc.
    unfold bind, subprocess_run, print, raise, ret. simpl.
    repeat match goal with
           | |- context [if ?b then _ else _] => destruct b; simpl
           end; intros H; discriminate H.
Qed.

Lemma split_no_separator c s : Str.contains c s = false -> Str.split c s = [s].
Proof.
  induction s as [|a s IH]; simpl; [reflexivity|].
  destruct (Ascii.eqb a c); simpl; [discriminate|].
  intros H. now rewrite (IH H).
Qed.

Lemma split_at_separator c s rest :
  Str.contains c s = false ->
  Str.split c (s +++ String c rest) = s :: Str.split c rest.
Proof.
  induction s as [|a s IH]; simpl.
  - intros _. now rewrite Ascii.eqb_refl.
  - destruct (Ascii.eqb a c); simpl; [discriminate|].
    intros H. now rewrite (IH H).
Qed.

(** Splitting at the slashes undoes joining with slashes. *)
Lemma split_join p ps :
  Forall (fun s => Str.contains "/" s = false) (p :: ps) ->
  Str.split "/" (Str.join "/" (p :: ps)) = p :: ps.
Proof.
  revert p. induction ps as [|q ps IH]; intros p H.
  - simpl. apply split_no_separator. now inversion H.
  - inversion H as [|x l Hp Hrest]; subst.
    change (Str.join "/" (p :: q :: ps)) with (p +++ String "/" (Str.join "/" (q :: ps))).
    rewrite (split_at_separator _ _ _ Hp). f_equal. now apply IH.
Qed.

Lemma root_of_plain a s : Ascii.eqb a "/" = false -> root_of (String a s) = NoRoot.
Proof.
  intros H.
  destruct a as [[] [] [] [] [] [] [] []]; try reflexivity; discriminate H.
Qed.

Lemma filter_keep_plain ps : Forall plain_part ps -> filter keep_part ps = ps.
Proof.
  induction 1 as [|s ps [H1 [H2 _]] _ IH]; simpl; [reflexivity|].
  assert (E : keep_part s = true).
  { unfold keep_part. apply String.eqb_neq in H1, H2. now rewrite H1, H2. }
  now rewrite E, IH.
Qed.

(** A relative path of plain parts is read back from its string form. *)
Lemma of_string_str r :
  root r = NoRoot -> Forall plain_part (parts r) -> of_string (str r) = r.
Proof.
  destruct r as [rr ps]. simpl. intros -> Hps.
  destruct ps as [|p ps]; [reflexivity|].
  unfold str, of_string. simpl root_str. cbn [root parts].
  change ("" +++ Str.join "/" (p :: ps)) with (Str.join "/" (p :: ps)).
  rewrite split_join.
  2:{ eapply Forall_impl; [|exact Hps]. now intros s [_ [_ H]]. }
  rewrite (filter_keep_plain _ Hps). f_equal.
  inversion Hps as [|x l [Hne [_ Hc]] _]; subst.
  destruct p as [|a s]; [contradiction|].
  simpl in Hc. apply orb_false_iff in Hc. destruct Hc as [Ha _].
  destruct ps as [|q ps]; simpl; now apply root_of_plain.
Qed.

(** X15. Choosing a line gives back the directory the line stands for:
    when [fzf] exits 0 having printed, up to surrounding white space, the
    relative form of a path below the parent whose parts are plain names,
    and that path is a directory, the selection returns it, resolved. *)
Theorem X15_chosen_line_gives_its_directory cfg (paths : list Path)
    (parent : Path) (rels : list Path) (w : World) (p r : Path) :
  let result := process (ran w) (fzf_invocation cfg rels parent) in
  candidate_list paths parent = inr rels ->
  relative_to p parent = Some r ->
  Forall plain_part (parts r) ->
  returncode result = 0 ->
  Str.strip (stdout result) = str r ->
  is_dir p = true ->
  fst (send_list_of_paths_to_fzf cfg paths parent w) = Ok (Some (resolve p)).
Proof.
  intros result Hc Hrel Hplain Hrc Hout Hdir.
  destruct (relative_to_joinpath _ _ _ Hrel) as [Hroot Hjoin].
  unfold send_list_of_paths_to_fzf. rewrite Hc.
  unfold bind, subprocess_run. simpl. fold result.
  rewrite Hrc, Hout, (of_string_str r Hroot Hplain), Hjoin. simpl.
  now rewrite Hdir.
Qed.

End Sessionizer.

(** C2 as stated fails: the parent directory itself is a candidate, sorted
    first as [/p] and shown as [.]; a sibling named [-x] follows it, though
    ["-x"] is smaller than ["."]. The list [fzf] gets is not sorted by its
    own, relative, strings. Nor is anything resolved: the link [/p/link]
    and the directory [/p/a] it leads to are both listed. *)
Lemma C2_not_sorted_by_relative_form :
  candidate_list [Fixture.P ["p"]; Fixture.P ["p"; "-x"]] (Fixture.P ["p"])
  = inr [mkPath NoRoot []; mkPath NoRoot ["-x"]] /\
  map str [mkPath NoRoot []; mkPath NoRoot ["-x"]] = ["."; "-x"] /\
  ~ Sorted str_le [mkPath NoRoot []; mkPath NoRoot ["-x"]] /\
  Fixture.resolve_link (Fixture.P ["p"; "link"])
  = Fixture.resolve_link (Fixture.P ["p"; "a"]) /\
  candidate_list [Fixture.P ["p"; "a"]; Fixture.P ["p"; "link"]] (Fixture.P ["p"])
  = inr [mkPath NoRoot ["a"]; mkPath NoRoot ["link"]].
Proof.
  split; [reflexivity|]. split; [reflexivity|].
  split; [|split; reflexivity].
  intros H. inversion H as [|a l _ Hhd]; subst.
  inversion Hhd as [|b l' Hle]; subst.
  unfold str_le, key_le in Hle. vm_compute in Hle. discriminate Hle.
Qed.

(** ** Properties of [fill_down] *)

Lemma truthy_entry_false prev : truthy_entry prev = false -> entry_value prev = "".
Proof. destruct prev as [[|c s]|]; simpl; congruence. Qed.

(** One row against [previous]: it fails exactly on a row longer than
    [previous]; otherwise each entry of [previous] keeps the last
    non-empty string seen in its column, and each cell of the row comes
    out as that string. *)
Lemma fill_row_spec row : forall previous,
  ((List.length row <= List.length previous)%nat ->
   exists row' previous',
     fill_row row previous = Some (row', previous') /\
     List.length row' = List.length row /\
     List.length previous' = List.length previous /\
     forall i,
       entry_value (nth i previous' None)
       = keep_last (entry_value (nth i previous None)) (nth i row "") /\
       ((i < List.length row)%nat ->
        nth i row' "" = entry_value (nth i previous' None))) /\
  ((List.length previous < List.length row)%nat -> fill_row row previous = None).
Proof.
  induction row as [|value rest IH]; intros previous; simpl.
  - split; [|lia]. intros _. exists [], previous. repeat split; try lia.
    now destruct i.
  - destruct previous as [|prev previous]; simpl; [split; [lia | reflexivity]|].
    destruct (IH previous) as [Hok Hbad]. split.
    + intros Hlen. destruct Hok as [row' [previous' [E [Hr [Hp Hcells]]]]]; [lia|].
      rewrite E. do 2 eexists. split; [reflexivity|]. simpl.
      split; [lia|]. split; [lia|].
      intros [|i]; [|destruct (Hcells i) as [H1 H2]; split; [exact H1 | intros; apply H2; lia]].
      unfold keep_last. simpl.
      destruct (String.eqb value "") eqn:Ev; simpl.
      * destruct (truthy_entry prev) eqn:Et; simpl; [now split|].
        apply String.eqb_eq in Ev. subst value.
        rewrite (truthy_entry_false _ Et). now split.
      * now split.
    + intros Hlen. now rewrite Hbad by lia.
Qed.

Lemma nth_repeat_None n i : entry_value (nth i (repeat (@None string) n) None) = "".
Proof.
  revert i. induction n as [|n IH]; intros [|i]; simpl; auto.
Qed.

Lemma fill_rows_ended rows : forall previous,
  snd (fill_rows rows previous) = IndexError <->
  Exists (fun row => (List.length previous < List.length row)%nat) rows.
Proof.
  induction rows as [|row rows IH]; intros previous; simpl.
  - split; [discriminate | intros H; inversion H].
  - destruct (fill_row_spec row previous) as [Hok Hbad].
    destruct (Nat.le_gt_cases (List.length row) (List.length previous)) as [Hle|Hgt].
    + destruct (Hok Hle) as [row' [previous' [E [_ [Hp _]]]]]. rewrite E.
      destruct (fill_rows rows previous') as [yielded ended] eqn:Er. simpl.
      specialize (IH previous'). rewrite Er in IH. simpl in IH.
      rewrite IH, Hp. split; [now right|].
      intros H. inversion H; subst; [lia | assumption].
    + rewrite (Hbad Hgt). simpl. split; [now left | reflexivity].
Qed.

Lemma fill_rows_cells rows : forall previous yielded,
  fill_rows rows previous = (yielded, Exhausted) ->
  List.length yielded = List.length rows /\
  forall j, (j < List.length rows)%nat ->
    List.length (nth j yielded []) = List.length (nth j rows []) /\
    forall i, (i < List.length (nth j rows []))%nat ->
      nth i (nth j yielded []) ""
      = fold_left keep_last (column i (firstn (S j) rows))
          (entry_value (nth i previous None)).
Proof.
  induction rows as [|row rows IH]; intros previous yielded H.
  - simpl in H. injection H as <-. split; [reflexivity | simpl; lia].
  - cbn [fill_rows] in H.
    destruct (fill_row_spec row previous) as [Hok Hbad].
    destruct (Nat.le_gt_cases (List.length row) (List.length previous)) as [Hle|Hgt];
      [|rewrite (Hbad Hgt) in H; discriminate H].
    destruct (Hok Hle) as [row' [previous' [E [Hr [Hp Hcells]]]]].
    rewrite E in H.
    destruct (fill_rows rows previous') as [rest ended] eqn:Er.
    injection H as <- ->.
    destruct (IH previous' rest Er) as [Hlen Hrest].
    split; [simpl; lia|].
    intros [|j] Hj.
    + simpl nth. split; [exact Hr|]. intros i Hi.
      destruct (Hcells i) as [H1 H2]. rewrite (H2 Hi), H1. reflexivity.
    + simpl nth. destruct (Hrest j) as [Hl Hc]; [simpl in Hj; lia|].
      split; [exact Hl|]. intros i Hi. rewrite (Hc i Hi).
      destruct (Hcells i) as [H1 _]. rewrite H1.
      change (firstn (S (S j)) (row :: rows)) with (row :: firstn (S j) rows).
      reflexivity.
Qed.

Lemma fill_row_again row : forall previous previous2 row' previous',
  fill_row row previous = Some (row', previous') ->
  map entry_value previous = map entry_value previous2 ->
  exists previous2',
    fill_row row' previous2 = Some (row', previous2') /\
    map entry_value previous' = map entry_value previous2'.
Proof.
  induction row as [|value rest IH]; intros previous previous2 row' previous' H HR.
  - simpl in H. injection H as <- <-. now exists previous2.
  - simpl in H. destruct previous as [|prev previous]; [discriminate H|].
    destruct previous2 as [|prev2 previous2]; [discriminate HR|].
    simpl in HR. injection HR as Hv HR.
    destruct (fill_row rest previous) as [[rest' previous_rest']|] eqn:E;
      [|discriminate H].
    injection H as <- <-.
    destruct (IH _ _ _ _ E HR) as [previous2' [E2 HR2]].
    simpl. rewrite E2.
    set (cell := if String.eqb value "" && truthy_entry prev
                 then entry_value prev else value).
    assert (Hcell : String.eqb cell "" && truthy_entry prev2 = false).
    { unfold cell. destruct (String.eqb value "") eqn:Ev; simpl.
      - destruct (truthy_entry prev) eqn:Et.
        + destruct prev as [[|c s]|]; try discriminate Et. reflexivity.
        + apply String.eqb_eq in Ev. subst value. simpl.
          destruct prev2 as [[|c s]|]; try reflexivity.
          rewrite (truthy_entry_false _ Et) in Hv. discriminate Hv.
      - now rewrite Ev. }
    rewrite Hcell. eexists. split; [reflexivity|]. simpl. f_equal; [|exact HR2].
    unfold cell. destruct (String.eqb value "" && truthy_entry prev); reflexivity.
Qed.

Lemma fill_rows_again rows : forall previous previous2 yielded ended,
  fill_rows rows previous = (yielded, ended) ->
  map entry_value previous = map entry_value previous2 ->
  fill_rows yielded previous2 = (yielded, Exhausted).
Proof.
  induction rows as [|row rows IH]; intros previous previous2 yielded ended H HR.
  - simpl in H. now injection H as <- _.
  - simpl in H.
    destruct (fill_row row previous) as [[row' previous']|] eqn:E.
    + destruct (fill_rows rows previous') as [rest e] eqn:Er.
      injection H as <- _.
      destruct (fill_row_again _ _ _ _ _ E HR) as [previous2' [E2 HR2]].
      simpl. rewrite E2. now rewrite (IH _ _ _ _ Er HR2).
    + now injection H as <- _.
Qed.

(** X16. [fill_down] ends with an [IndexError] exactly when it is given no
    rows at all, or a row longer than the first one; otherwise it yields
    every row. *)
Theorem X16_fill_down_index_error (rows : list (list string)) :
  snd (fill_down rows) = IndexError <->
  rows = [] \/
  Exists (fun row => (List.length (hd [] rows) < List.length row)%nat) rows.
Proof.
  destruct rows as [|first rest]; [simpl; split; auto|].
  unfold fill_down. rewrite fill_rows_ended, repeat_length. simpl hd.
  split; [now right | intros [H|H]; [discriminate H | exact H]].
Qed.

(** X17. When [fill_down] yields every row, the rows keep their number
    and their lengths, and each cell holds the last non-empty string of
    its column from the first row down to its own: a non-empty cell is
    left as it is, and an empty one takes the nearest non-empty cell
    above it, staying empty only when there is none. *)
Theorem X17_fill_down_cells (rows yielded : list (list string)) :
  fill_down rows = (yielded, Exhausted) ->
  List.length yielded = List.length rows /\
  forall j, (j < List.length rows)%nat ->
    List.length (nth j yielded []) = List.length (nth j rows []) /\
    forall i, (i < List.length (nth j rows []))%nat ->
      nth i (nth j yielded []) "" = last_filled (column i (firstn (S j) rows)).
Proof.
  destruct rows as [|first rest]; [discriminate|].
  unfold fill_down. intros H.
  destruct (fill_rows_cells _ _ _ H) as [Hlen Hcells].
  split; [exact Hlen|]. intros j Hj.
  destruct (Hcells j Hj) as [Hl Hc]. split; [exact Hl|].
  intros i Hi. rewrite (Hc i Hi), nth_repeat_None. reflexivity.
Qed.

(** X18. Filling down twice changes nothing more: the rows [fill_down]
    yields are yielded again, as they are, when it is run on them. *)
Theorem X18_fill_down_idempotent (rows yielded : list (list string)) :
  fill_down rows = (yielded, Exhausted) ->
  fill_down yielded = (yielded, Exhausted).
Proof.
  destruct rows as [|first rest]; [discriminate|].
  unfold fill_down. intros H.
  destruct (fill_rows_cells _ _ _ H) as [Hlen Hcells].
  destruct yielded as [|first' rest']; [discriminate Hlen|].
  destruct (Hcells 0%nat) as [Hl _]; [simpl; lia|]. simpl in Hl.
  rewrite Hl. now apply (fill_rows_again _ _ _ _ _ H).
Qed.

(** ** The properties at work on the example file system *)

Lemma C1_walker_bounded_witness :
  In (Fixture.P ["p"; "a"; "x"])
     (find_project_dirs Fixture.cancelling (CONFIG Fixture.cancelling)
        (Fixture.P ["p"]) 2 []) /\
  exists rel,
    parts (Fixture.P ["p"; "a"; "x"]) = parts (Fixture.P ["p"]) ++ rel /\
    Z.of_nat (List.length rel) <= 2 < 2 + 1 /\
    forall k, (k < List.length rel)%nat ->
      descended Fixture.cancelling (on_the_way (Fixture.P ["p"]) rel k).
Proof.
  assert (H : In (Fixture.P ["p"; "a"; "x"])
                (find_project_dirs Fixture.cancelling (CONFIG Fixture.cancelling)
                   (Fixture.P ["p"]) 2 [])).
  { vm_compute. repeat first [left; reflexivity | right]. }
  split; [exact H|].
  exact (proj2 (C1_walker_bounded Fixture.cancelling (CONFIG Fixture.cancelling)
                  (Fixture.P ["p"]) 2 (Fixture.P ["p"; "a"; "x"]) H)).
Defined.

Lemma C2_candidate_list_witness :
  exists absolute,
    NoDup absolute /\
    (forall p, In p absolute <-> In p [Fixture.P ["p"; "b"]; Fixture.P ["p"; "a"];
                                       Fixture.P ["p"; "a"]]) /\
    Sorted str_le absolute /\
    map (fun p => relative_to p (Fixture.P ["p"])) absolute
    = map Some [mkPath NoRoot ["a"]; mkPath NoRoot ["b"]] /\
    forall cfg w,
      ran (snd (send_list_of_paths_to_fzf Fixture.cancelling cfg
                  [Fixture.P ["p"; "b"]; Fixture.P ["p"; "a"]; Fixture.P ["p"; "a"]]
                  (Fixture.P ["p"]) w))
      = ran w ++ [mkInvocation (fzf_cmd cfg (Fixture.P ["p"]))
                    (Some (Str.join (String Str.LF "")
                             (map str [mkPath NoRoot ["a"]; mkPath NoRoot ["b"]])))].
Proof.
  apply (proj1 (C2_candidate_list_sorted_absolute Fixture.cancelling)).
  reflexivity.
Defined.

Lemma C3_first_match_witness :
  fst (find_tmux_session_by_path (Fixture.picking "py")
         (CONFIG (Fixture.picking "py")) (of_string "/home/y/") initial)
  = Ok (Some "work").
Proof.
  apply (C3_first_match_in_listing_order (Fixture.picking "py")
           (CONFIG (Fixture.picking "py")) (of_string "/home/y/") initial);
    [reflexivity | reflexivity | reflexivity | discriminate].
Defined.

Lemma C4_selection_outcome_witness :
  fst (send_list_of_paths_to_fzf (Fixture.breaking "out" "err")
         (CONFIG (Fixture.breaking "out" "err"))
         [Fixture.P ["p"]; Fixture.P ["p"; "a"]] (Fixture.P ["p"]) initial)
  = Raise (ValueError NoValidDirectorySelected) /\
  fst (send_list_of_paths_to_fzf (Fixture.picking "a")
         (CONFIG (Fixture.picking "a"))
         [Fixture.P ["p"]; Fixture.P ["p"; "a"]] (Fixture.P ["p"]) initial)
  = Ok (Some (Fixture.P ["p"; "a"])).
Proof.
  split.
  - apply (proj1 (C4_selection_outcome (Fixture.breaking "out" "err")
                    (CONFIG (Fixture.breaking "out" "err"))
                    [Fixture.P ["p"]; Fixture.P ["p"; "a"]] (Fixture.P ["p"])
                    [mkPath NoRoot []; mkPath NoRoot ["a"]] initial eq_refl)).
    right. split; discriminate.
  - apply (C4_selection_outcome (Fixture.picking "a")
             (CONFIG (Fixture.picking "a"))
             [Fixture.P ["p"]; Fixture.P ["p"; "a"]] (Fixture.P ["p"])
             [mkPath NoRoot []; mkPath NoRoot ["a"]] initial eq_refl);
      reflexivity.
Defined.

(** C4 as stated fails, twice over. The directory test is made before
    anything is resolved: [fzf] exits 0 with [nope/..], where [nope] does
    not exist; [/p/nope/..] resolves to [/p], an existing directory, and
    yet the selection fails. And the exception carries nothing of what
    [fzf] wrote: breaking with status 2, it raises the same exception with
    the same fixed text whatever its output, which is in the printed lines
    only. *)
Lemma C4_tests_unresolved_path_and_fixed_error :
  (returncode
     (sys_process Fixture.through_missing (ran initial)
        (fzf_invocation (CONFIG Fixture.through_missing)
           [mkPath NoRoot ["a"]] (Fixture.P ["p"]))) = 0 /\
   sys_is_dir Fixture.through_missing
     (sys_resolve Fixture.through_missing
        (joinpath (Fixture.P ["p"])
           (of_string
              (Str.strip
                 (stdout
                    (sys_process Fixture.through_missing (ran initial)
                       (fzf_invocation (CONFIG Fixture.through_missing)
                          [mkPath NoRoot ["a"]] (Fixture.P ["p"])))))))) = true /\
   fst (send_list_of_paths_to_fzf Fixture.through_missing
          (CONFIG Fixture.through_missing)
          [Fixture.P ["p"; "a"]] (Fixture.P ["p"]) initial)
   = Raise (ValueError NoValidDirectorySelected)) /\
  fst (send_list_of_paths_to_fzf (Fixture.breaking "out" "err")
         (CONFIG (Fixture.breaking "out" "err"))
         [Fixture.P ["p"; "a"]] (Fixture.P ["p"]) initial)
  = Raise (ValueError NoValidDirectorySelected) /\
  fst (send_list_of_paths_to_fzf (Fixture.breaking "" "")
         (CONFIG (Fixture.breaking "" ""))
         [Fixture.P ["p"; "a"]] (Fixture.P ["p"]) initial)
  = Raise (ValueError NoValidDirectorySelected) /\
  render NoValidDirectorySelected
  = "No valid directory selected. Do you have fzf installed and in your PATH?" /\
  stdout (sys_process (Fixture.breaking "out" "err") []
            (fzf_invocation (CONFIG (Fixture.breaking "out" "err"))
               [mkPath NoRoot ["a"]] (Fixture.P ["p"])))
  <> stdout (sys_process (Fixture.breaking "" "") []
               (fzf_invocation (CONFIG (Fixture.breaking "" ""))
                  [mkPath NoRoot ["a"]] (Fixture.P ["p"]))).
Proof.
  repeat split; try reflexivity. vm_compute. discriminate.
Qed.

Lemma C5_third_step_fails_witness :
  start_standard_tmux_session (Fixture.failing_fourth "a")
    (CONFIG (Fixture.failing_fourth "a")) "a" (Fixture.P ["p"; "a"]) initial
  = (Raise (CalledProcessError 1
              ["tmux"; "split-window"; "-v"; "-t"; "a:2"; "-c"; "/p/a"]),
     mkWorld
       [ mkInvocation ["tmux"; "new-session"; "-d"; "-s"; "a"; "-c"; "/p/a"] None;
         mkInvocation ["tmux"; "rename-window"; "-t"; "a:1"; "neovim"] None;
         mkInvocation ["tmux"; "new-window"; "-t"; "a"; "-n"; "dev"; "-c"; "/p/a"] None;
         mkInvocation ["tmux"; "split-window"; "-v"; "-t"; "a:2"; "-c"; "/p/a"] None ]
       []).
Proof.
  apply (proj1 (C5_launch_stops_at_first_failure (Fixture.failing_fourth "a")
                  (CONFIG (Fixture.failing_fourth "a")) "a" (Fixture.P ["p"; "a"])
                  initial eq_refl) 2%nat
           ["tmux"; "split-window"; "-v"; "-t"; "a:2"; "-c"; "/p/a"]).
  - reflexivity.
  - intros [|[|j]] Hj; [reflexivity | reflexivity | lia].
  - discriminate.
Defined.

Lemma C6_activation_prefix_witness :
  filter is_send_keys
    (standard_tmux_session Fixture.cancelling "py" (Fixture.P ["p"; "py"]))
  = [ send_keys "py" "1.1" "poetry shell && nvim .";
      send_keys "py" "2.1" "poetry shell";
      send_keys "py" "2.2" "poetry shell";
      send_keys "py" "3.1" "poetry shell" ] /\
  filter is_send_keys
    (standard_tmux_session Fixture.cancelling "a" (Fixture.P ["p"; "a"]))
  = [ send_keys "a" "1.1" "nvim ." ].
Proof.
  split.
  - apply (proj1 (C6_activation_prefix Fixture.cancelling "py" (Fixture.P ["p"; "py"]))
             ["poetry"; "shell"]).
    apply (proj1 (proj2 (C6_activation_prefix Fixture.cancelling "py"
                           (Fixture.P ["p"; "py"])))); reflexivity.
  - apply (proj2 (proj2 (C6_activation_prefix Fixture.cancelling "a"
                           (Fixture.P ["p"; "a"])))); reflexivity.
Defined.

Lemma C7_cancelled_selection_witness :
  fst (main Fixture.cancelling (CONFIG Fixture.cancelling)
         (default_args (CONFIG Fixture.cancelling)) initial) = Ok 1 /\
  exists fzf,
    hd "" (argv fzf) = "fzf" /\
    ran (snd (main Fixture.cancelling (CONFIG Fixture.cancelling)
                (default_args (CONFIG Fixture.cancelling)) initial))
    = ran initial ++ [fzf].
Proof.
  apply (C7_cancelled_selection Fixture.cancelling (CONFIG Fixture.cancelling)
           (default_args (CONFIG Fixture.cancelling)) initial).
  - reflexivity.
  - reflexivity.
  - reflexivity.
  - simpl. lia.
  - intros [[|exe rest] i] H; simpl in H; [discriminate H|].
    subst exe. reflexivity.
Defined.

Lemma C8_allowed_dotfiles_inert_witness :
  find_project_dirs Fixture.cancelling
    (with_allowed_dotfiles (CONFIG Fixture.cancelling) [".hidden"])
    (Fixture.P ["p"; ".hidden"]) 2 []
  = [] ++ [Fixture.P ["p"; ".hidden"]].
Proof.
  apply (proj2 (C8_allowed_dotfiles_inert Fixture.cancelling
                  (CONFIG Fixture.cancelling) [".hidden"] []
                  (Fixture.P ["p"; ".hidden"]) 2 []));
    [lia | reflexivity | reflexivity | reflexivity].
Defined.

Lemma C9_root_is_candidate_witness :
  In (Fixture.P ["p"])
     (find_project_dirs Fixture.cancelling (CONFIG Fixture.cancelling)
        (Fixture.P ["p"]) 2 []) /\
  find_project_dirs Fixture.cancelling (CONFIG Fixture.cancelling)
    (sys_resolve Fixture.cancelling
       (arg_parent_dir (default_args (CONFIG Fixture.cancelling))))
    (arg_depth (default_args (CONFIG Fixture.cancelling))) [] <> [] /\
  arg_depth (mkArgs (Fixture.P ["p"]) (-1) None false) < 0.
Proof.
  split; [|split].
  - apply (proj1 (C9_root_is_candidate Fixture.cancelling (CONFIG Fixture.cancelling)));
      [lia | reflexivity | reflexivity].
  - apply (proj1 (proj2 (C9_root_is_candidate Fixture.cancelling
                           (CONFIG Fixture.cancelling))));
      [reflexivity | simpl; lia].
  - apply (proj2 (proj2 (C9_root_is_candidate Fixture.cancelling
                           (CONFIG Fixture.cancelling)))
             (mkArgs (Fixture.P ["p"]) (-1) None false) initial (Fixture.P ["p"])).
    reflexivity.
Defined.

Lemma C10_new_session_witness :
  exists rest,
    ran (snd (find_session_or_start_then_attach (Fixture.picking "a")
                (CONFIG (Fixture.picking "a")) (Fixture.P ["p"; "a"]) initial))
    = ran initial ++ tmux_ls
        :: new_session (name (Fixture.P ["p"; "a"])) (Fixture.P ["p"; "a"]) :: rest /\
    (fst (find_session_or_start_then_attach (Fixture.picking "a")
            (CONFIG (Fixture.picking "a")) (Fixture.P ["p"; "a"]) initial) = Ok 0 ->
     exists steps,
       rest = steps ++ [attach_invocation (Fixture.picking "a")
                          (name (Fixture.P ["p"; "a"]))]).
Proof.
  apply (C10_new_session_named_after_directory (Fixture.picking "a")
           (CONFIG (Fixture.picking "a")) (Fixture.P ["p"; "a"]) initial);
    reflexivity.
Defined.

Lemma X1_walk_records_witness :
  walked Fixture.cancelling (Fixture.P ["p"]) 2 (Fixture.P ["p"; "a"; "x"]).
Proof.
  apply (proj1 (X1_walk_records_exactly_the_reachable Fixture.cancelling
                  (CONFIG Fixture.cancelling) (Fixture.P ["p"]) 2
                  (Fixture.P ["p"; "a"; "x"]))).
  vm_compute. repeat first [left; reflexivity | right].
Defined.

Lemma X2_deeper_walk_witness :
  In (Fixture.P ["p"; "a"])
     (find_project_dirs Fixture.cancelling (CONFIG Fixture.cancelling)
        (Fixture.P ["p"]) 2 []).
Proof.
  apply (X2_deeper_walk_finds_more Fixture.cancelling (CONFIG Fixture.cancelling)
           (Fixture.P ["p"]) 1 2 (Fixture.P ["p"; "a"])); [lia|].
  vm_compute. repeat first [left; reflexivity | right].
Defined.

Lemma X3_walk_has_no_duplicates_witness :
  NoDup (find_project_dirs Fixture.cancelling (CONFIG Fixture.cancelling)
           (Fixture.P ["p"]) 2 []).
Proof.
  apply (X3_walk_has_no_duplicates Fixture.cancelling (CONFIG Fixture.cancelling)
           (Fixture.P ["p"]) 2).
  intros p. simpl. unfold Fixture.listdir.
  destruct (existsb (eqb p) Fixture.dirs) eqn:E; [|constructor].
  apply existsb_exists in E. destruct E as [q [Hq E]].
  apply eqb_true_iff in E. subst q. simpl in Hq.
  repeat (destruct Hq as [<-|Hq];
          [vm_compute;
           repeat (apply NoDup_cons; [simpl; intuition discriminate|]);
           apply NoDup_nil|]).
  destruct Hq.
Defined.

Lemma X4_registry_lookup_witness :
  fst (find_tmux_session_by_path (Fixture.failing_fourth "a")
         (CONFIG (Fixture.failing_fourth "a")) (Fixture.P ["p"; "a"])
         (mkWorld [tmux_ls; tmux_ls; tmux_ls] []))
  = Ok None.
Proof.
  apply (X4_registry_lookup_fails_open (Fixture.failing_fourth "a")
           (CONFIG (Fixture.failing_fourth "a")) (Fixture.P ["p"; "a"])
           (mkWorld [tmux_ls; tmux_ls; tmux_ls] [])).
  discriminate.
Defined.

Lemma X5_existing_session_witness :
  fst (find_session_or_start_then_attach (Fixture.picking "py")
         (CONFIG (Fixture.picking "py")) (Fixture.P ["home"; "y"]) initial)
  = Ok 0 /\
  ran (snd (find_session_or_start_then_attach (Fixture.picking "py")
              (CONFIG (Fixture.picking "py")) (Fixture.P ["home"; "y"]) initial))
  = ran initial ++ [tmux_ls; attach_invocation (Fixture.picking "py") "work"] /\
  printed (snd (find_session_or_start_then_attach (Fixture.picking "py")
                  (CONFIG (Fixture.picking "py")) (Fixture.P ["home"; "y"]) initial))
  = printed initial.
Proof.
  apply (X5_existing_session_is_attached (Fixture.picking "py")
           (CONFIG (Fixture.picking "py")) (Fixture.P ["home"; "y"]) initial "work");
    [reflexivity | reflexivity | discriminate].
Defined.

Lemma X6_empty_session_name_witness :
  exists rest,
    ran (snd (find_session_or_start_then_attach Fixture.nameless
                (CONFIG Fixture.nameless) (Fixture.P ["p"; "a"]) initial))
    = ran initial ++ tmux_ls
        :: new_session (name (Fixture.P ["p"; "a"])) (Fixture.P ["p"; "a"]) :: rest.
Proof.
  apply (X6_empty_session_name_is_no_match Fixture.nameless
           (CONFIG Fixture.nameless) (Fixture.P ["p"; "a"]) initial);
    reflexivity.
Defined.

Lemma X7_failed_launch_witness :
  exists code cmd k,
    CalledProcessError 1 ["tmux"; "new-window"; "-t"; "a"; "-n"; "dev"; "-c"; "/p/a"]
    = CalledProcessError code cmd /\ code <> 0 /\
    (cmd = argv (new_session (name (Fixture.P ["p"; "a"])) (Fixture.P ["p"; "a"])) \/
     In cmd (tmux_session_factory (CONFIG (Fixture.failing_fourth "a"))
               (name (Fixture.P ["p"; "a"])) (Fixture.P ["p"; "a"]))) /\
    ran (snd (find_session_or_start_then_attach (Fixture.failing_fourth "a")
                (CONFIG (Fixture.failing_fourth "a")) (Fixture.P ["p"; "a"]) initial))
    = ran initial ++ tmux_ls
        :: new_session (name (Fixture.P ["p"; "a"])) (Fixture.P ["p"; "a"])
        :: step_invocations
             (firstn k (tmux_session_factory (CONFIG (Fixture.failing_fourth "a"))
                          (name (Fixture.P ["p"; "a"])) (Fixture.P ["p"; "a"]))).
Proof.
  apply (X7_failed_launch_is_not_attached (Fixture.failing_fourth "a")
           (CONFIG (Fixture.failing_fourth "a")) (Fixture.P ["p"; "a"]) initial);
    reflexivity.
Defined.

Lemma X8_sessions_mode_witness :
  fst (main Fixture.cancelling (CONFIG Fixture.cancelling)
         (mkArgs (Fixture.P ["nowhere"]) (-1) None true) initial) = Ok 0.
Proof.
  apply (X8_sessions_mode Fixture.cancelling (CONFIG Fixture.cancelling)
           (mkArgs (Fixture.P ["nowhere"]) (-1) None true) initial).
  reflexivity.
Defined.

Lemma X9_exit_status_witness :
  (1 = 0 \/ 1 = 1) /\
  (1 = 1 ->
   arg_sessions (default_args (CONFIG Fixture.cancelling)) = false /\
   arg_directory (default_args (CONFIG Fixture.cancelling)) = None /\
   exists rels,
     candidate_list
       (find_project_dirs Fixture.cancelling (CONFIG Fixture.cancelling)
          (sys_resolve Fixture.cancelling
             (arg_parent_dir (default_args (CONFIG Fixture.cancelling))))
          (arg_depth (default_args (CONFIG Fixture.cancelling))) [])
       (sys_resolve Fixture.cancelling
          (arg_parent_dir (default_args (CONFIG Fixture.cancelling))))
     = inr rels /\
     returncode
       (sys_process Fixture.cancelling (ran initial)
          (fzf_invocation (CONFIG Fixture.cancelling) rels
             (sys_resolve Fixture.cancelling
                (arg_parent_dir (default_args (CONFIG Fixture.cancelling))))))
     = 130).
Proof.
  apply (X9_exit_status Fixture.cancelling (CONFIG Fixture.cancelling)
           (default_args (CONFIG Fixture.cancelling)) initial 1).
  reflexivity.
Defined.

Lemma X10_only_tmux_and_fzf_witness :
  exists l,
    ran (snd (main (Fixture.picking "py") (CONFIG (Fixture.picking "py"))
                (default_args (CONFIG (Fixture.picking "py"))) initial))
    = ran initial ++ l /\
    Forall (fun inv => tmux_command inv \/ fzf_command inv) l /\
    (arg_sessions (default_args (CONFIG (Fixture.picking "py"))) = false ->
     arg_directory (default_args (CONFIG (Fixture.picking "py"))) <> None ->
     Forall tmux_command l).
Proof.
  apply (proj1 (X10_only_tmux_and_fzf (Fixture.picking "py")
                  (CONFIG (Fixture.picking "py"))
                  (default_args (CONFIG (Fixture.picking "py"))) initial)).
  exact (proj2 (X10_only_tmux_and_fzf (Fixture.picking "py")
                  (CONFIG (Fixture.picking "py"))
                  (default_args (CONFIG (Fixture.picking "py"))) initial)).
Defined.

Lemma X11_failed_validation_witness :
  main Fixture.cancelling (CONFIG Fixture.cancelling)
    (mkArgs (Fixture.P ["p"]) (-1) None false) initial
  = (Raise (ValueError (NoSubdirectoriesFound (Fixture.P ["p"]))), initial).
Proof.
  apply (proj2 (proj2 (X11_failed_validation_runs_nothing Fixture.cancelling
                         (CONFIG Fixture.cancelling)
                         (mkArgs (Fixture.P ["p"]) (-1) None false) initial
                         eq_refl)));
    [reflexivity | reflexivity | simpl; lia].
Defined.

Lemma X12_candidates_round_trip_witness :
  (forall p,
      In p [Fixture.P ["p"; "b"]; Fixture.P ["p"]; Fixture.P ["p"; "b"]] <->
      exists r,
        In r [mkPath NoRoot []; mkPath NoRoot ["b"]] /\
        joinpath (Fixture.P ["p"]) r = p) /\
  (forall r,
      In r [mkPath NoRoot []; mkPath NoRoot ["b"]] ->
      root r = NoRoot /\
      relative_to (joinpath (Fixture.P ["p"]) r) (Fixture.P ["p"]) = Some r) /\
  NoDup [mkPath NoRoot []; mkPath NoRoot ["b"]].
Proof.
  apply (X12_candidates_round_trip
           [Fixture.P ["p"; "b"]; Fixture.P ["p"]; Fixture.P ["p"; "b"]]
           (Fixture.P ["p"]) [mkPath NoRoot []; mkPath NoRoot ["b"]]).
  reflexivity.
Defined.

Lemma X13_candidate_outside_parent_witness :
  exists q,
    send_list_of_paths_to_fzf (Fixture.picking "a") (CONFIG (Fixture.picking "a"))
      [Fixture.P ["p"; "a"]; Fixture.P ["home"; "x"]] (Fixture.P ["p"]) initial
    = (Raise (ValueError (NotInSubpath q (Fixture.P ["p"]))), initial).
Proof.
  apply (proj1 (X13_candidate_outside_parent (Fixture.picking "a")
                  (CONFIG (Fixture.picking "a"))
                  [Fixture.P ["p"; "a"]; Fixture.P ["home"; "x"]]
                  (Fixture.P ["p"]) initial)).
  exists (Fixture.P ["home"; "x"]). split; [right; now left | reflexivity].
Defined.

Lemma X15_chosen_line_witness :
  fst (send_list_of_paths_to_fzf (Fixture.picking "a/x")
         (CONFIG (Fixture.picking "a/x"))
         [Fixture.P ["p"; "a"]; Fixture.P ["p"; "a"; "x"]] (Fixture.P ["p"]) initial)
  = Ok (Some (sys_resolve (Fixture.picking "a/x") (Fixture.P ["p"; "a"; "x"]))).
Proof.
  apply (X15_chosen_line_gives_its_directory (Fixture.picking "a/x")
           (CONFIG (Fixture.picking "a/x"))
           [Fixture.P ["p"; "a"]; Fixture.P ["p"; "a"; "x"]] (Fixture.P ["p"])
           [mkPath NoRoot ["a"]; mkPath NoRoot ["a"; "x"]] initial
           (Fixture.P ["p"; "a"; "x"]) (mkPath NoRoot ["a"; "x"]));
    try reflexivity.
  repeat constructor; discriminate.
Defined.

Lemma X16_fill_down_index_error_witness :
  snd (fill_down [["a"]; ["b"; "c"]]) = IndexError.
Proof.
  apply (proj2 (X16_fill_down_index_error [["a"]; ["b"; "c"]])).
  right. apply Exists_cons_tl. apply Exists_cons_hd. simpl. lia.
Defined.

Lemma X17_fill_down_cells_witness :
  List.length [["a"; "x"; ""]; ["a"; "x"; ""]; ["b"]]
  = List.length [["a"; "x"; ""]; [""; ""; ""]; ["b"]] /\
  forall j, (j < List.length [["a"; "x"; ""]; [""; ""; ""]; ["b"]])%nat ->
    List.length (nth j [["a"; "x"; ""]; ["a"; "x"; ""]; ["b"]] [])
    = List.length (nth j [["a"; "x"; ""]; [""; ""; ""]; ["b"]] []) /\
    forall i, (i < List.length (nth j [["a"; "x"; ""]; [""; ""; ""]; ["b"]] []))%nat ->
      nth i (nth j [["a"; "x"; ""]; ["a"; "x"; ""]; ["b"]] []) ""
      = last_filled (column i (firstn (S j) [["a"; "x"; ""]; [""; ""; ""]; ["b"]])).
Proof.
  apply (X17_fill_down_cells [["a"; "x"; ""]; [""; ""; ""]; ["b"]]
           [["a"; "x"; ""]; ["a"; "x"; ""]; ["b"]]).
  reflexivity.
Defined.

Lemma X18_fill_down_idempotent_witness :
  fill_down [["a"; "x"; ""]; ["a"; "x"; ""]; ["b"]]
  = ([["a"; "x"; ""]; ["a"; "x"; ""]; ["b"]], Exhausted).
Proof.
  apply (X18_fill_down_idempotent [["a"; "x"; ""]; [""; ""; ""]; ["b"]]
           [["a"; "x"; ""]; ["a"; "x"; ""]; ["b"]]).
  reflexivity.
Defined.

(** ** Examples *)

Example splitlines_ex :
  Str.splitlines ("a" +++ String Str.CR (String Str.LF "") +++ "b" +++ String Str.LF ""
                  +++ String Str.LF "c") = ["a"; "b"; ""; "c"].
Proof. reflexivity. Qed.

Example strip_ex : Str.strip ("  a b " +++ String Str.LF "") = "a b".
Proof. reflexivity. Qed.

Example path_ex : of_string "/home/y/" = mkPath Slash ["home"; "y"].
Proof. reflexivity. Qed.

Example path_ex2 : str (of_string "//a/./b//c") = "//a/b/c" /\ str (of_string "") = "."
   /\ str (of_string "///a") = "/a" /\ name (of_string "/") = "".
Proof. repeat split. Qed.

(** The walk of the example tree at depth 2: [a/x/y] is too deep, nothing
    below the repository [b], the dot-directory [.hidden] or the link is
    listed, and the file is left out. *)
Example walk_ex :
  map str (find_project_dirs Fixture.cancelling (CONFIG Fixture.cancelling)
             (Fixture.P ["p"]) 2 [])
  = ["/p"; "/p/a"; "/p/a/x"; "/p/b"; "/p/.hidden"; "/p/py"; "/p/-x"; "/p/link"].
Proof. reflexivity. Qed.

(** A run in which the user picks [py], for which no session exists. *)
Example main_ex :
  let sys := Fixture.picking "py" in
  let outcome := main sys (CONFIG sys) (default_args (CONFIG sys)) initial in
  fst outcome = Ok 0 /\
  map argv (tl (ran (snd outcome)))
  = [ ["tmux"; "ls"; "-F"; "#{session_name}:#{session_path}"];
      ["tmux"; "new-session"; "-d"; "-s"; "py"; "-c"; "/p/py"];
      ["tmux"; "rename-window"; "-t"; "py:1"; "neovim"];
      ["tmux"; "new-window"; "-t"; "py"; "-n"; "dev"; "-c"; "/p/py"];
      ["tmux"; "split-window"; "-v"; "-t"; "py:2"; "-c"; "/p/py"];
      ["tmux"; "select-window"; "-t"; "py:2.1"];
      ["tmux"; "new-window"; "-t"; "py"; "-n"; "shell"; "-c"; "/p/py"];
      ["tmux"; "send-keys"; "-t"; "py:1.1"; "poetry shell && nvim ."; "C-m"];
      ["tmux"; "send-keys"; "-t"; "py:2.1"; "poetry shell"; "C-m"];
      ["tmux"; "send-keys"; "-t"; "py:2.2"; "poetry shell"; "C-m"];
      ["tmux"; "send-keys"; "-t"; "py:3.1"; "poetry shell"; "C-m"];
      ["tmux"; "select-window"; "-t"; "py:1"];
      ["tmux"; "attach-session"; "-t"; "py"] ].
Proof. split; reflexivity. Qed.
